(** * First-person movement and collision core (FPSCanvas)

    A shallow embedding of the per-frame integrator of the [Player]
    component: [intersectsBox], [resolveCollisions] and the [useFrame]
    callback, together with the [THREE.Vector3] methods they call.

    Numbers.  A JavaScript number is modelled by a real number: arithmetic
    is exact (no rounding) and the non-finite values are absent.  [Math.exp],
    [Math.sqrt] and [Math.min] are the real [exp], [sqrt] and [Rmin]; the
    literals 0.35, 1.6, 1.7 and 0.5 are the corresponding fractions.

    State.  The refs [velocity], [position], [onGround] and the camera are
    the fields of one record that each frame takes and returns.  The
    scratch vectors [tempFront], [tempSide] and [moveDirection] are fully
    overwritten before they are read, so they carry nothing from frame to
    frame and are local values here.  [resolveCollisions] mutates its
    argument, [velocity.current] and [onGround.current]; here it returns
    the three.

    three.js.  The vector methods follow the library: [normalize] divides
    by [length() || 1], [divideScalar(s)] multiplies by [1 / s], and
    [applyQuaternion] is [v + q.w * t + cross(q.xyz, t)] with
    [t = 2 * cross(q.xyz, v)]. *)

From Stdlib Require Import Reals Lra Lia Bool List.
From Stdlib Require Ascii String.
Import ListNotations.

Open Scope R_scope.

(** ** JavaScript comparisons on numbers, as booleans *)

Module Num.

Definition ltb (a b : R) : bool := if Rlt_dec a b then true else false.
Definition gtb (a b : R) : bool := ltb b a.
Definition neqb (a b : R) : bool := if Req_dec_T a b then false else true.

(** [Number(b)] for a boolean [b]. *)
Definition Number (b : bool) : R := if b then 1 else 0.

(** [a || b] on numbers: [a] unless it is falsy (zero). *)
Definition or_else (a b : R) : R := if Req_dec_T a 0 then b else a.

End Num.

(** ** The part of three.js the component uses *)

Module THREE.

Record Vector3 : Type := mkVector3 { x : R; y : R; z : R }.

Record Quaternion : Type := mkQuaternion { qx : R; qy : R; qz : R; qw : R }.

Definition set (_ : Vector3) (a b c : R) : Vector3 := mkVector3 a b c.
Definition clone (v : Vector3) : Vector3 := v.
Definition copy (_ v : Vector3) : Vector3 := v.
Definition setX (v : Vector3) (a : R) : Vector3 := mkVector3 a (y v) (z v).
Definition setY (v : Vector3) (b : R) : Vector3 := mkVector3 (x v) b (z v).
Definition setZ (v : Vector3) (c : R) : Vector3 := mkVector3 (x v) (y v) c.

Definition add (v w : Vector3) : Vector3 :=
  mkVector3 (x v + x w) (y v + y w) (z v + z w).
Definition sub (v w : Vector3) : Vector3 :=
  mkVector3 (x v - x w) (y v - y w) (z v - z w).
Definition multiplyScalar (v : Vector3) (s : R) : Vector3 :=
  mkVector3 (x v * s) (y v * s) (z v * s).
Definition divideScalar (v : Vector3) (s : R) : Vector3 :=
  multiplyScalar v (1 / s).
Definition addScaledVector (v w : Vector3) (s : R) : Vector3 :=
  mkVector3 (x v + x w * s) (y v + y w * s) (z v + z w * s).

Definition lengthSq (v : Vector3) : R := x v * x v + y v * y v + z v * z v.
Definition length (v : Vector3) : R := sqrt (lengthSq v).

(** [normalize] divides by [length() || 1]: the zero vector stays zero. *)
Definition normalize (v : Vector3) : Vector3 :=
  divideScalar v (Num.or_else (length v) 1).

(** [applyQuaternion]: [v + q.w * t + cross(q.xyz, t)] with
    [t = 2 * cross(q.xyz, v)]. *)
Definition applyQuaternion (v : Vector3) (q : Quaternion) : Vector3 :=
  let tx := 2 * (qy q * z v - qz q * y v) in
  let ty := 2 * (qz q * x v - qx q * z v) in
  let tz := 2 * (qx q * y v - qy q * x v) in
  mkVector3 (x v + qw q * tx + qy q * tz - qz q * ty)
            (y v + qw q * ty + qz q * tx - qx q * tz)
            (z v + qw q * tz + qx q * ty - qy q * tx).

Definition zero : Vector3 := mkVector3 0 0 0.

Record Camera : Type := mkCamera { cam_position : Vector3; quaternion : Quaternion }.

End THREE.

Import THREE.

(** ** Input flags *)

Record MovementKeys : Type := mkKeys {
  forward : bool;
  backward : bool;
  left : bool;
  right : bool;
  jump : bool;
  sprint : bool
}.

Definition INITIAL_KEYS : MovementKeys :=
  mkKeys false false false false false false.

(** ** Colliders *)

Module Collider.
Record t : Type := mk { position : Vector3; size : Vector3 }.
End Collider.
Abbreviation Collider := Collider.t.

Definition createCollider (position size : R * R * R) : Collider :=
  let '(px, py, pz) := position in
  let '(sx, sy, sz) := size in
  Collider.mk (mkVector3 px py pz) (mkVector3 sx sy sz).

Definition box_min (collider : Collider) : Vector3 :=
  sub (clone (Collider.position collider))
      (multiplyScalar (clone (Collider.size collider)) (5 / 10)).

Definition box_max (collider : Collider) : Vector3 :=
  add (clone (Collider.position collider))
      (multiplyScalar (clone (Collider.size collider)) (5 / 10)).

Definition intersectsBox (point : Vector3) (collider : Collider) : bool :=
  let min := box_min collider in
  let max := box_max collider in
  Num.gtb (x point) (x min) && Num.ltb (x point) (x max) &&
  Num.gtb (y point) (y min) && Num.ltb (y point) (y max) &&
  Num.gtb (z point) (z min) && Num.ltb (z point) (z max).

(** ** The player *)

(** [controlsRef.current]: [None] before the controls mount. *)
Record Controls : Type := mkControls { isLocked : bool }.

Record Player : Type := mkPlayer {
  velocity : Vector3;
  position : Vector3;
  onGround : bool;
  camera : Camera
}.

(** The spawn point: [position]'s initial value and the [Canvas] camera
    position. *)
Definition spawn : Vector3 := mkVector3 0 (16 / 10) 6.

(** A fresh camera has the identity orientation. *)
Definition identityQ : Quaternion := mkQuaternion 0 0 0 1.

Definition initialPlayer : Player :=
  mkPlayer zero spawn false (mkCamera spawn identityQ).

Definition capsuleRadius : R := 35 / 100.
Definition capsuleHeight : R := 17 / 10.
Definition floorHeight : R := 16 / 10.

(** Overlap depths of the radius-inflated point along X and Z. *)
Definition depthX (target : Vector3) (collider : Collider) : R :=
  Rmin (x (box_max collider) - (x target - capsuleRadius))
       (x target + capsuleRadius - x (box_min collider)).

Definition depthZ (target : Vector3) (collider : Collider) : R :=
  Rmin (z (box_max collider) - (z target - capsuleRadius))
       (z target + capsuleRadius - z (box_min collider)).

(** Body of the [for (const collider of colliders)] loop of
    [resolveCollisions]; it updates [target] and [velocity.current]. *)
Definition resolveCollider (tv : Vector3 * Vector3) (collider : Collider)
  : Vector3 * Vector3 :=
  let '(target, vel) := tv in
  if intersectsBox target collider then
    let min := box_min collider in
    let max := box_max collider in
    if Num.ltb (y target - capsuleRadius) (y max)
       && Num.gtb (y target + capsuleHeight) (y min)
    then
      if Num.ltb (depthX target collider) (depthZ target collider) then
        (setX target
           (x target +
            (if Num.gtb (x target) (x (Collider.position collider))
             then depthX target collider else - depthX target collider)),
         setX vel 0)
      else
        (setZ target
           (z target +
            (if Num.gtb (z target) (z (Collider.position collider))
             then depthZ target collider else - depthZ target collider)),
         setZ vel 0)
    else tv
  else tv.

(** The whole loop, in list order. *)
Definition resolveBoxes (colliders : list Collider) (target vel : Vector3)
  : Vector3 * Vector3 :=
  fold_left resolveCollider colliders (target, vel).

(** The floor clamp that ends [resolveCollisions]. *)
Definition clampFloor (target vel : Vector3) : Vector3 * Vector3 * bool :=
  if Num.ltb (y target) floorHeight
  then (setY target floorHeight, setY vel 0, true)
  else (target, vel, false).

(** [resolveCollisions(target)]: returns the corrected target with the new
    [velocity.current] and [onGround.current]. *)
Definition resolveCollisions (colliders : list Collider)
           (target vel : Vector3) : Vector3 * Vector3 * bool :=
  let '(target1, vel1) := resolveBoxes colliders target vel in
  clampFloor target1 vel1.

(** *** The frame callback, stage by stage *)

Definition acceleration : R := 36.
Definition gravity : R := 50.
Definition jumpStrength : R := 10.
Definition damping (delta : R) : R := exp (-4 * delta).
Definition targetSpeed (keys : MovementKeys) : R :=
  if sprint keys then 12 else 6.
Definition moveZ (keys : MovementKeys) : R :=
  Num.Number (backward keys) - Num.Number (forward keys).
Definition moveX (keys : MovementKeys) : R :=
  Num.Number (right keys) - Num.Number (left keys).

Definition tempFront (q : Quaternion) : Vector3 :=
  normalize (setY (applyQuaternion (set zero 0 0 (-1)) q) 0).
Definition tempSide (q : Quaternion) : Vector3 :=
  normalize (setY (applyQuaternion (set zero 1 0 0) q) 0).
Definition moveDirection (q : Quaternion) (keys : MovementKeys) : Vector3 :=
  addScaledVector (multiplyScalar (copy zero (tempFront q)) (moveZ keys))
                  (tempSide q) (moveX keys).

Definition currentSpeed (vel : Vector3) : R := sqrt (x vel ^ 2 + z vel ^ 2).

(** Horizontal damping: [velocity.x *= damping; velocity.z *= damping]. *)
Definition dampHorizontal (delta : R) (vel : Vector3) : Vector3 :=
  mkVector3 (x vel * damping delta) (y vel) (z vel * damping delta).

(** The [if (moveX !== 0 || moveZ !== 0)] block: acceleration along the
    move direction, then the speed clamp. *)
Definition steer (q : Quaternion) (keys : MovementKeys) (delta : R)
           (vel : Vector3) : Vector3 :=
  if Num.neqb (moveX keys) 0 || Num.neqb (moveZ keys) 0 then
    let md := moveDirection q keys in
    let vel1 :=
      if Num.gtb (lengthSq md) 0
      then addScaledVector vel (normalize md) (acceleration * delta)
      else vel in
    let speed := currentSpeed vel1 in
    if Num.gtb speed (targetSpeed keys) then
      let factor := targetSpeed keys / speed in
      mkVector3 (x vel1 * factor) (y vel1) (z vel1 * factor)
    else vel1
  else vel.

(** [velocity.y -= gravity * delta]. *)
Definition applyGravity (delta : R) (vel : Vector3) : Vector3 :=
  setY vel (y vel - gravity * delta).

(** Velocity and grounded flag just before the tentative position is
    computed (damping, steering, gravity, jump). *)
Definition integrateVelocity (keys : MovementKeys) (delta : R) (p : Player)
  : Vector3 * bool :=
  let vel := applyGravity delta
               (steer (quaternion (camera p)) keys delta
                  (dampHorizontal delta (velocity p))) in
  if jump keys && onGround p
  then (setY vel jumpStrength, false)
  else (vel, onGround p).

(** [nextPosition], before [resolveCollisions] corrects it. *)
Definition candidate (keys : MovementKeys) (delta : R) (p : Player) : Vector3 :=
  addScaledVector (clone (position p)) (fst (integrateVelocity keys delta p)) delta.

Definition gateEngaged (controls : option Controls) : bool :=
  match controls with
  | Some c => isLocked c
  | None => false
  end.

Definition useFrame (colliders : list Collider) (controls : option Controls)
           (keys : MovementKeys) (delta : R) (p : Player) : Player :=
  if negb (gateEngaged controls) then p
  else
    let vel := fst (integrateVelocity keys delta p) in
    let nextPosition := candidate keys delta p in
    let '(target, vel', grounded) := resolveCollisions colliders nextPosition vel in
    let position' := copy (position p) target in
    mkPlayer vel' position' grounded
             (mkCamera (copy (cam_position (camera p)) position')
                       (quaternion (camera p))).

(** The scene's colliders, as [FPSCanvas] builds them. *)
Definition colliders : list Collider :=
  [ createCollider (0, 15 / 10, -10) (8, 3, 2);
    createCollider (-12, 25 / 10, -24) (6, 5, 8);
    createCollider (14, 35 / 10, -18) (10, 7, 10);
    createCollider (-6, 15 / 10, -3) (2, 3, 8);
    createCollider (9, 15 / 10, 4) (12, 3, 2);
    createCollider (2, 5, -38) (18, 10, 6) ].

(** *** Runs of frames *)

(** What the callback finds when a frame runs: the pointer-lock controls,
    the key flags, the orientation that mouse look has given the camera by
    then, and the elapsed time. *)
Record Frame : Type := mkFrame {
  f_controls : option Controls;
  f_keys : MovementKeys;
  f_look : Quaternion;
  f_delta : R
}.

(** Mouse look writes the camera orientation and nothing else. *)
Definition lookAround (q : Quaternion) (p : Player) : Player :=
  mkPlayer (velocity p) (position p) (onGround p)
           (mkCamera (cam_position (camera p)) q).

Definition frameStep (cs : list Collider) (f : Frame) (p : Player) : Player :=
  useFrame cs (f_controls f) (f_keys f) (f_delta f) (lookAround (f_look f) p).

(** Frames in the order they run, oldest first. *)
Definition runFrames (cs : list Collider) (frames : list Frame) (p : Player)
  : Player :=
  fold_left (fun s f => frameStep cs f s) frames p.

(** ** The input state tracker ([useMovementControls]) *)

Module Keyboard.
Import Ascii String.

(** [toLowerCase] on one character: the ASCII capitals move to their small
    letters.  Characters outside ASCII are left as they are: none of them
    lowercases to a character of the ten key names below, so the switch of
    [toggleKey] takes the same branch. *)
Definition lowerChar (c : ascii) : ascii :=
  let n := nat_of_ascii c in
  if (65 <=? n)%nat && (n <=? 90)%nat then ascii_of_nat (n + 32) else c.

Fixpoint toLowerCase (s : string) : string :=
  match s with
  | EmptyString => EmptyString
  | String c r => String (lowerChar c) (toLowerCase r)
  end.

(** The updater that [toggleKey] hands to [setKeys]: a copy of [prev] with
    the flag of the key's case overwritten. *)
Definition toggleKey (key : string) (pressed : bool) (prev : MovementKeys)
  : MovementKeys :=
  let next := prev in
  let k := toLowerCase key in
  if (k =? "w")%string || (k =? "arrowup")%string then
    mkKeys pressed (backward next) (left next) (right next) (jump next)
           (sprint next)
  else if (k =? "s")%string || (k =? "arrowdown")%string then
    mkKeys (forward next) pressed (left next) (right next) (jump next)
           (sprint next)
  else if (k =? "a")%string || (k =? "arrowleft")%string then
    mkKeys (forward next) (backward next) pressed (right next) (jump next)
           (sprint next)
  else if (k =? "d")%string || (k =? "arrowright")%string then
    mkKeys (forward next) (backward next) (left next) pressed (jump next)
           (sprint next)
  else if (k =? " ")%string then
    mkKeys (forward next) (backward next) (left next) (right next) pressed
           (sprint next)
  else if (k =? "shift")%string then
    mkKeys (forward next) (backward next) (left next) (right next) (jump next)
           pressed
  else next.

(** The two window listeners. *)
Inductive KeyboardEvent : Type :=
| keydown (key : string)
| keyup (key : string).

Definition handleKey (keys : MovementKeys) (event : KeyboardEvent)
  : MovementKeys :=
  match event with
  | keydown key => toggleKey key true keys
  | keyup key => toggleKey key false keys
  end.

(** The [keys] state after a series of events, oldest first. *)
Definition handleKeys (events : list KeyboardEvent) (keys : MovementKeys)
  : MovementKeys :=
  fold_left handleKey events keys.

End Keyboard.

(** ** The floating drones ([FloatingDrone]) *)

(** What the frame callback touches of the [THREE.Group]: its position and
    its Euler rotation. *)
Record Group : Type := mkGroup { g_position : Vector3; g_rotation : Vector3 }.

(** The [useFrame] callback of a drone; [group] is [group.current], [None]
    while the ref is still null. *)
Definition droneFrame (origin : Vector3) (radius speed phase : R)
           (group : option Group) (elapsedTime : R) : option Group :=
  match group with
  | None => None
  | Some g =>
      let start := clone origin in
      let t := elapsedTime * speed + phase in
      let yWave := sin (t * (18 / 10)) * (12 / 10) in
      Some (mkGroup
              (set (g_position g)
                   (x start + cos t * radius)
                   (y start + yWave)
                   (z start + sin t * radius))
              (setY (g_rotation g) (t + PI / 2)))
  end.


(** * Vocabulary of the properties *)

(** Grounded states sit on the floor: kept by every frame. *)
Definition groundedOnFloor (p : Player) : Prop :=
  onGround p = false \/ y (position p) = floorHeight.

(** The four side faces of a box. *)
Inductive Face : Type := XMax | XMin | ZMax | ZMin.

(** Distance from a point inside the box to the plane of a side face. *)
Definition faceDistance (c : Collider) (point : Vector3) (f : Face) : R :=
  match f with
  | XMax => x (box_max c) - x point
  | XMin => x point - x (box_min c)
  | ZMax => z (box_max c) - z point
  | ZMin => z point - z (box_min c)
  end.

(** The point, inflated by the capsule radius towards the box, lies exactly
    on the plane of the face. *)
Definition touchesFace (c : Collider) (point : Vector3) (f : Face) : Prop :=
  match f with
  | XMax => x point - capsuleRadius = x (box_max c)
  | XMin => x point + capsuleRadius = x (box_min c)
  | ZMax => z point - capsuleRadius = z (box_max c)
  | ZMin => z point + capsuleRadius = z (box_min c)
  end.

(** Moved along the X axis only, [velocity.x] zeroed and nothing else. *)
Definition resolvedAlongX (target vel target' vel' : Vector3) : Prop :=
  x target' <> x target /\ y target' = y target /\ z target' = z target /\
  x vel' = 0 /\ y vel' = y vel /\ z vel' = z vel.

Definition resolvedAlongZ (target vel target' vel' : Vector3) : Prop :=
  z target' <> z target /\ y target' = y target /\ x target' = x target /\
  z vel' = 0 /\ y vel' = y vel /\ x vel' = x vel.

Definition resolvedAlong (f : Face) : Vector3 -> Vector3 -> Vector3 -> Vector3 -> Prop :=
  match f with
  | XMax | XMin => resolvedAlongX
  | ZMax | ZMin => resolvedAlongZ
  end.

(** The horizontal part of a push along X: the x coordinate moves,
    [velocity.x] is zeroed, and z and [velocity.z] stay. *)
Definition pushedAlongX (target vel target' vel' : Vector3) : Prop :=
  x target' <> x target /\ z target' = z target /\
  x vel' = 0 /\ z vel' = z vel.

Definition pushedAlongZ (target vel target' vel' : Vector3) : Prop :=
  z target' <> z target /\ x target' = x target /\
  z vel' = 0 /\ x vel' = x vel.

Definition pushedAlong (f : Face) : Vector3 -> Vector3 -> Vector3 -> Vector3 -> Prop :=
  match f with
  | XMax | XMin => pushedAlongX
  | ZMax | ZMin => pushedAlongZ
  end.

(** The point lies strictly inside the box. *)
Definition insideBox (point : Vector3) (c : Collider) : Prop :=
  x (box_min c) < x point < x (box_max c) /\
  y (box_min c) < y point < y (box_max c) /\
  z (box_min c) < z point < z (box_max c).

(** The point lies strictly outside the (closed) box. *)
Definition outsideBox (point : Vector3) (c : Collider) : Prop :=
  x point < x (box_min c) \/ x (box_max c) < x point \/
  y point < y (box_min c) \/ y (box_max c) < y point \/
  z point < z (box_min c) \/ z (box_max c) < z point.

(** The point inflated by the capsule margins overlaps the box. *)
Definition inflatedOverlap (point : Vector3) (c : Collider) : Prop :=
  x (box_min c) < x point + capsuleRadius /\
  x point - capsuleRadius < x (box_max c) /\
  y (box_min c) < y point + capsuleHeight /\
  y point - capsuleRadius < y (box_max c) /\
  z (box_min c) < z point + capsuleRadius /\
  z point - capsuleRadius < z (box_max c).

(** The spawn state once it has been clamped to the floor. *)
Definition groundedSpawn : Player :=
  mkPlayer zero spawn true (mkCamera spawn identityQ).

(** The guard of the steering block: some net directional input. *)
Definition steering (keys : MovementKeys) : bool :=
  Num.neqb (moveX keys) 0 || Num.neqb (moveZ keys) 0.

(** Unit vector of the move direction. *)
Definition heading (q : Quaternion) (keys : MovementKeys) : Vector3 :=
  normalize (moveDirection q keys).

(** Speed after one steered frame that started at speed [s] along the
    heading: damped, accelerated, then capped at [T]. *)
Definition speedStep (T delta s : R) : R :=
  Rmin (s * damping delta + acceleration * delta) T.

Fixpoint speedAfter (T delta : R) (n : nat) : R :=
  match n with
  | O => 0
  | S k => speedStep T delta (speedAfter T delta k)
  end.

(** The horizontal velocity is [s] times the heading. *)
Definition aligned (q : Quaternion) (keys : MovementKeys) (s : R) (p : Player)
  : Prop :=
  x (velocity p) = s * x (heading q keys) /\
  z (velocity p) = s * z (heading q keys).

(** An engaged frame with given orientation, keys and delta, and the
    distance covered by a run of such frames. *)
Definition steadyFrame (q : Quaternion) (keys : MovementKeys) (delta : R)
  : Frame :=
  mkFrame (Some (mkControls true)) keys q delta.

Fixpoint travelled (T delta : R) (n : nat) : R :=
  match n with
  | O => 0
  | S k => travelled T delta k + speedAfter T delta (S k) * delta
  end.

(** No candidate of the first [n] frames of the run lies inside a box. *)
Definition clearPath (cs : list Collider) (q : Quaternion)
           (keys : MovementKeys) (delta : R) (p0 : Player) (n : nat) : Prop :=
  forall k, (k < n)%nat ->
  forall c, In c cs ->
    ~ insideBox
        (candidate keys delta
           (lookAround q
              (runFrames cs (repeat (steadyFrame q keys delta) k) p0))) c.

(** The camera's forward axis projected on the ground plane, before
    [tempFront] normalises it. *)
Definition frontProjection (q : Quaternion) : Vector3 :=
  setY (applyQuaternion (set zero 0 0 (-1)) q) 0.

Definition forwardOnly : MovementKeys :=
  mkKeys true false false false false false.

Definition sprintForward : MovementKeys :=
  mkKeys true false false false false true.

(** ** Vocabulary for the input state tracker *)

(** The six logical actions, the flag of each, and the key names bound to
    it. *)
Inductive Action : Type := Forward | Backward | Left | Right | Jump | Sprint.

Definition flag (a : Action) (keys : MovementKeys) : bool :=
  match a with
  | Forward => forward keys
  | Backward => backward keys
  | Left => left keys
  | Right => right keys
  | Jump => jump keys
  | Sprint => sprint keys
  end.

Definition Action_eqb (a b : Action) : bool :=
  match a, b with
  | Forward, Forward | Backward, Backward | Left, Left
  | Right, Right | Jump, Jump | Sprint, Sprint => true
  | _, _ => false
  end.

Module Bindings.
Import String.

Definition keyBindings : list (string * Action) :=
  [ ("w"%string, Forward); ("arrowup"%string, Forward);
    ("s"%string, Backward); ("arrowdown"%string, Backward);
    ("a"%string, Left); ("arrowleft"%string, Left);
    ("d"%string, Right); ("arrowright"%string, Right);
    (" "%string, Jump); ("shift"%string, Sprint) ].

(** Some values of [event.key], as browsers report them. *)
Definition key_W : string := "W".
Definition key_ArrowUp : string := "ArrowUp".
Definition key_q : string := "q".
Definition key_Escape : string := "Escape".

End Bindings.
Import Bindings.

(** The action a key name is bound to, if any, whatever its case. *)
Definition keyAction (key : String.string) : option Action :=
  option_map snd
    (find (fun b => String.eqb (Keyboard.toLowerCase key) (fst b)) keyBindings).

Definition eventKey (e : Keyboard.KeyboardEvent) : String.string :=
  match e with
  | Keyboard.keydown k => k
  | Keyboard.keyup k => k
  end.

Definition eventPressed (e : Keyboard.KeyboardEvent) : bool :=
  match e with
  | Keyboard.keydown _ => true
  | Keyboard.keyup _ => false
  end.

(** The event is about a key bound to the action. *)
Definition concerns (a : Action) (e : Keyboard.KeyboardEvent) : bool :=
  match keyAction (eventKey e) with
  | Some b => Action_eqb a b
  | None => false
  end.

(** ASCII small letters to capitals, character by character. *)
Definition upperChar (c : Ascii.ascii) : Ascii.ascii :=
  let n := Ascii.nat_of_ascii c in
  if (97 <=? n)%nat && (n <=? 122)%nat then Ascii.ascii_of_nat (n - 32) else c.

Fixpoint asciiUpper (s : String.string) : String.string :=
  match s with
  | String.EmptyString => String.EmptyString
  | String.String c r => String.String (upperChar c) (asciiUpper r)
  end.

(** ** Vocabulary for the boxes *)

(** The point lies strictly inside the footprint of the box on the ground
    plane. *)
Definition insideXZ (point : Vector3) (c : Collider) : Prop :=
  x (box_min c) < x point < x (box_max c) /\
  z (box_min c) < z point < z (box_max c).

(** The point lies in the footprint widened by the capsule radius on every
    side. *)
Definition nearXZ (point : Vector3) (c : Collider) : Prop :=
  x (box_min c) - capsuleRadius <= x point <= x (box_max c) + capsuleRadius /\
  z (box_min c) - capsuleRadius <= z point <= z (box_max c) + capsuleRadius.

(** No point of the widened footprint of [c] is in the footprint of [c']. *)
Definition apart (c c' : Collider) : Prop :=
  forall point, nearXZ point c -> ~ insideXZ point c'.

(** Any two different boxes of the list are apart. *)
Definition wellSpaced (cs : list Collider) : Prop :=
  forall c c', In c cs -> In c' cs -> c = c' \/ apart c c'.

(** The box stands on the ground plane y = 0 or below it and reaches the
    floor height. *)
Definition standing (c : Collider) : Prop :=
  y (box_min c) <= 0 /\ floorHeight <= y (box_max c).

(** ** Vocabulary for the frames *)

(** The player stands on the floor with no vertical velocity. *)
Definition rests (p : Player) : Prop :=
  y (position p) = floorHeight /\ y (velocity p) = 0.

(** Total time of a series of frames. *)
Definition elapsed (frames : list Frame) : R :=
  fold_right (fun f t => f_delta f + t) 0 frames.

(** No candidate of the run lies inside a box. *)
Fixpoint clearRun (cs : list Collider) (frames : list Frame) (p : Player)
  : Prop :=
  match frames with
  | [] => True
  | f :: fs =>
      (forall c, In c cs ->
         ~ insideBox (candidate (f_keys f) (f_delta f) (lookAround (f_look f) p)) c)
      /\ clearRun cs fs (frameStep cs f p)
  end.


(** * Properties *)

(** ** Comparisons *)

Lemma ltb_true_iff (a b : R) : Num.ltb a b = true <-> a < b.
Proof. unfold Num.ltb; destruct (Rlt_dec a b); split; intros; try easy; lra. Qed.

Lemma ltb_false_iff (a b : R) : Num.ltb a b = false <-> b <= a.
Proof. unfold Num.ltb; destruct (Rlt_dec a b); split; intros; try easy; lra. Qed.

Lemma gtb_true_iff (a b : R) : Num.gtb a b = true <-> b < a.
Proof. apply ltb_true_iff. Qed.

Lemma gtb_false_iff (a b : R) : Num.gtb a b = false <-> a <= b.
Proof. apply ltb_false_iff. Qed.

Lemma neqb_true_iff (a b : R) : Num.neqb a b = true <-> a <> b.
Proof. unfold Num.neqb; destruct (Req_dec_T a b); split; intros; easy. Qed.

Lemma neqb_false_iff (a b : R) : Num.neqb a b = false <-> a = b.
Proof. unfold Num.neqb; destruct (Req_dec_T a b); split; intros; easy. Qed.

(** Evaluate comparisons between concrete numbers. *)
Ltac num_eval :=
  unfold Num.gtb, Num.ltb, Num.neqb, Num.or_else in *;
  repeat match goal with
         | |- context [Rlt_dec ?a ?b] =>
             destruct (Rlt_dec a b); [ try (exfalso; lra) | try (exfalso; lra) ]
         | |- context [Req_dec_T ?a ?b] =>
             destruct (Req_dec_T a b); [ try (exfalso; lra) | try (exfalso; lra) ]
         end.

(** ** The box loop *)

Lemma intersectsBox_true_iff (point : Vector3) (c : Collider) :
  intersectsBox point c = true <->
  x (box_min c) < x point < x (box_max c) /\
  y (box_min c) < y point < y (box_max c) /\
  z (box_min c) < z point < z (box_max c).
Proof.
  unfold intersectsBox.
  rewrite !andb_true_iff, !gtb_true_iff, !ltb_true_iff. tauto.
Qed.

Lemma resolveCollider_y (tv : Vector3 * Vector3) (c : Collider) :
  y (fst (resolveCollider tv c)) = y (fst tv) /\
  y (snd (resolveCollider tv c)) = y (snd tv).
Proof.
  destruct tv as [target vel]. unfold resolveCollider.
  destruct (intersectsBox target c); [ | easy ].
  destruct (_ && _); [ | easy ].
  destruct (Num.ltb _ _); easy.
Qed.

Lemma fold_resolveCollider_y (cs : list Collider) (tv : Vector3 * Vector3) :
  y (fst (fold_left resolveCollider cs tv)) = y (fst tv) /\
  y (snd (fold_left resolveCollider cs tv)) = y (snd tv).
Proof.
  revert tv. induction cs as [ | c cs IH ]; intros tv; simpl; [ easy | ].
  destruct (IH (resolveCollider tv c)) as [Ht Hv].
  destruct (resolveCollider_y tv c) as [Ht' Hv'].
  split; congruence.
Qed.

Lemma resolveBoxes_y (cs : list Collider) (target vel : Vector3) :
  y (fst (resolveBoxes cs target vel)) = y target /\
  y (snd (resolveBoxes cs target vel)) = y vel.
Proof. apply (fold_resolveCollider_y cs (target, vel)). Qed.

(** What [resolveCollisions] does to the vertical components. *)
Lemma resolveCollisions_vertical (cs : list Collider) (target vel : Vector3) :
  let '(t', v', g) := resolveCollisions cs target vel in
  (y target < floorHeight /\ y t' = floorHeight /\ y v' = 0 /\ g = true) \/
  (floorHeight <= y target /\ y t' = y target /\ y v' = y vel /\ g = false).
Proof.
  unfold resolveCollisions.
  destruct (resolveBoxes_y cs target vel) as [Ht Hv].
  destruct (resolveBoxes cs target vel) as [t1 v1]; simpl in Ht, Hv.
  unfold clampFloor.
  destruct (Num.ltb (y t1) floorHeight) eqn:E.
  - apply ltb_true_iff in E. left. simpl. rewrite <- Ht. easy.
  - apply ltb_false_iff in E. right. rewrite <- Ht, <- Hv. easy.
Qed.

(** One engaged frame, seen through [resolveCollisions]. *)
Lemma useFrame_engaged (cs : list Collider) (controls : option Controls)
      (keys : MovementKeys) (delta : R) (p : Player) :
  gateEngaged controls = true ->
  useFrame cs controls keys delta p =
  let '(t', v', g) :=
    resolveCollisions cs (candidate keys delta p)
                      (fst (integrateVelocity keys delta p)) in
  mkPlayer v' t' g (mkCamera t' (quaternion (camera p))).
Proof.
  intros H. unfold useFrame. rewrite H. simpl.
  destruct (resolveCollisions _ _ _) as [[t' v'] g]. reflexivity.
Qed.

(** The two vertical outcomes of an engaged frame. *)
Lemma floor_frame_cases (cs : list Collider) (controls : option Controls)
      (keys : MovementKeys) (delta : R) (p : Player) :
  gateEngaged controls = true ->
  let p' := useFrame cs controls keys delta p in
  let vel := fst (integrateVelocity keys delta p) in
  (y (candidate keys delta p) < floorHeight /\
   y (position p') = floorHeight /\ y (velocity p') = 0 /\ onGround p' = true) \/
  (floorHeight <= y (candidate keys delta p) /\
   y (position p') = y (candidate keys delta p) /\
   y (velocity p') = y vel /\ onGround p' = false).
Proof.
  intros G p' vel. subst p' vel. rewrite (useFrame_engaged _ _ _ _ _ G).
  pose proof (resolveCollisions_vertical cs (candidate keys delta p)
                (fst (integrateVelocity keys delta p))) as V.
  destruct (resolveCollisions _ _ _) as [[t' v'] g].
  cbn [position onGround velocity]. exact V.
Qed.

(** ** Gate *)

(** C8: with the activation gate (pointer lock) disengaged, a frame leaves
    position, velocity, grounded flag and camera pose exactly as they were,
    whatever the input flags and delta. *)
Theorem gate_off_frame_is_identity
        (cs : list Collider) (controls : option Controls)
        (keys : MovementKeys) (delta : R) (p : Player) :
  gateEngaged controls = false ->
  useFrame cs controls keys delta p = p.
Proof. intros H. unfold useFrame. rewrite H. reflexivity. Qed.

Lemma gate_off_frame_is_identity_witness :
  gateEngaged (Some (mkControls false)) = false /\
  gateEngaged None = false /\
  useFrame colliders (Some (mkControls false))
           (mkKeys true false false true true true) (1 / 60)
           initialPlayer
  = initialPlayer.
Proof.
  split; [ reflexivity | split; [ reflexivity | ] ].
  apply (gate_off_frame_is_identity colliders (Some (mkControls false))).
  reflexivity.
Defined.

(** ** Floor *)

(** C1: after every engaged frame the committed position has y >= 1.6;
    grounded is true exactly when the candidate y was strictly below 1.6
    (so that the floor clamp set it to 1.6), and then the vertical velocity
    is zero. *)
Theorem floor_clamp_frame
        (cs : list Collider) (controls : option Controls)
        (keys : MovementKeys) (delta : R) (p : Player) :
  gateEngaged controls = true ->
  let p' := useFrame cs controls keys delta p in
  floorHeight <= y (position p') /\
  (onGround p' = true <-> y (candidate keys delta p) < floorHeight) /\
  (onGround p' = true -> y (position p') = floorHeight /\ y (velocity p') = 0).
Proof.
  intros H p'. subst p'. rewrite (useFrame_engaged _ _ _ _ _ H).
  pose proof (resolveCollisions_vertical cs (candidate keys delta p)
                (fst (integrateVelocity keys delta p))) as V.
  destruct (resolveCollisions _ _ _) as [[t' v'] g].
  cbn [position onGround velocity].
  destruct V as [(Hlt & Ht & Hv & Hg) | (Hge & Ht & Hv & Hg)]; subst g.
  - repeat split; intros; auto; lra.
  - repeat split; intros; try discriminate; lra.
Qed.

Lemma floor_clamp_frame_witness :
  gateEngaged (Some (mkControls true)) = true /\
  let p' := useFrame colliders (Some (mkControls true))
                     (mkKeys true false false false true false) (1 / 60)
                     initialPlayer in
  floorHeight <= y (position p').
Proof.
  split; [ reflexivity | ].
  apply (floor_clamp_frame colliders (Some (mkControls true))
           (mkKeys true false false false true false) (1 / 60)
           initialPlayer).
  reflexivity.
Defined.

Lemma useFrame_groundedOnFloor (cs : list Collider) (controls : option Controls)
      (keys : MovementKeys) (delta : R) (p : Player) :
  groundedOnFloor p -> groundedOnFloor (useFrame cs controls keys delta p).
Proof.
  intros Hp. destruct (gateEngaged controls) eqn:G.
  - rewrite (useFrame_engaged _ _ _ _ _ G).
    pose proof (resolveCollisions_vertical cs (candidate keys delta p)
                  (fst (integrateVelocity keys delta p))) as V.
    destruct (resolveCollisions _ _ _) as [[t' v'] g].
    unfold groundedOnFloor; cbn [position onGround].
    destruct V as [(_ & Ht & _ & _) | (_ & _ & _ & Hg)]; auto.
  - unfold useFrame. rewrite G. exact Hp.
Qed.

Lemma runFrames_snoc (cs : list Collider) (fs : list Frame) (f : Frame)
      (p : Player) :
  runFrames cs (fs ++ [f]) p = frameStep cs f (runFrames cs fs p).
Proof. unfold runFrames. rewrite fold_left_app. reflexivity. Qed.

Lemma runFrames_groundedOnFloor (cs : list Collider) (fs : list Frame)
      (p : Player) :
  groundedOnFloor p -> groundedOnFloor (runFrames cs fs p).
Proof.
  intros Hp. induction fs as [ | f fs IH ] using rev_ind; [ exact Hp | ].
  rewrite runFrames_snoc. apply useFrame_groundedOnFloor, IH.
Qed.

(** C10: the box loop never changes the candidate's y nor the vertical
    velocity; only the floor clamp does.  Hence after an engaged frame, and
    in every state reached from the spawn state, grounded holds only at the
    floor height 1.6: no box top is ever a resting surface. *)
Theorem boxes_never_touch_vertical
        (cs : list Collider) (target vel : Vector3)
        (keys : MovementKeys) (delta : R) (p : Player)
        (frames : list Frame) :
  y (fst (resolveBoxes cs target vel)) = y target /\
  y (snd (resolveBoxes cs target vel)) = y vel /\
  groundedOnFloor (useFrame cs (Some (mkControls true)) keys delta p) /\
  groundedOnFloor (runFrames cs frames initialPlayer).
Proof.
  destruct (resolveBoxes_y cs target vel) as [Ht Hv].
  repeat split; auto.
  - assert (G : gateEngaged (Some (mkControls true)) = true) by reflexivity.
    rewrite (useFrame_engaged _ _ _ _ _ G).
    pose proof (resolveCollisions_vertical cs (candidate keys delta p)
                  (fst (integrateVelocity keys delta p))) as V.
    destruct (resolveCollisions _ _ _) as [[t' v'] g].
    unfold groundedOnFloor; cbn [position onGround].
    destruct V as [(_ & Ht' & _ & _) | (_ & _ & _ & Hg)]; auto.
  - apply runFrames_groundedOnFloor. left. reflexivity.
Qed.

(** ** Pushing out of one box *)

Ltac box_arith :=
  unfold depthX, depthZ, box_min, box_max, capsuleRadius, capsuleHeight,
    floorHeight, Rmin, clone in *;
  cbn [x y z add sub multiplyScalar setX setZ setY fst snd] in *;
  repeat match goal with
         | |- context [Rle_dec ?a ?b] => destruct (Rle_dec a b)
         | H : context [Rle_dec ?a ?b] |- _ => destruct (Rle_dec a b)
         end;
  try lra.

(** The vertical gate inside the loop always holds for a detected point. *)
Lemma inner_gate (target : Vector3) (c : Collider) :
  intersectsBox target c = true ->
  Num.ltb (y target - capsuleRadius) (y (box_max c))
  && Num.gtb (y target + capsuleHeight) (y (box_min c)) = true.
Proof.
  intros H. apply intersectsBox_true_iff in H.
  rewrite andb_true_iff, ltb_true_iff, gtb_true_iff.
  unfold capsuleRadius, capsuleHeight. lra.
Qed.

(** The box loop on a one-box list and a detected candidate: a push to the
    nearest side face along one horizontal axis. *)
Lemma resolveBoxes_single_push (c : Collider) (target vel : Vector3) :
  intersectsBox target c = true ->
  exists f : Face,
    (forall g : Face, faceDistance c target f <= faceDistance c target g) /\
    touchesFace c (fst (resolveBoxes [c] target vel)) f /\
    resolvedAlong f target vel (fst (resolveBoxes [c] target vel))
                  (snd (resolveBoxes [c] target vel)).
Proof.
  intros H. pose proof (inner_gate _ _ H) as G.
  unfold resolveBoxes; cbn [fold_left]; unfold resolveCollider.
  rewrite H, G. apply intersectsBox_true_iff in H.
  destruct (Num.ltb (depthX target c) (depthZ target c)) eqn:D;
    [ apply ltb_true_iff in D | apply ltb_false_iff in D ].
  - destruct (Num.gtb (x target) (x (Collider.position c))) eqn:S;
      [ apply gtb_true_iff in S; exists XMax
      | apply gtb_false_iff in S; exists XMin ];
      (split; [ intros []; cbn [faceDistance]; box_arith | ]);
      unfold touchesFace, resolvedAlong, resolvedAlongX;
      box_arith; repeat split; box_arith.
  - destruct (Num.gtb (z target) (z (Collider.position c))) eqn:S;
      [ apply gtb_true_iff in S; exists ZMax
      | apply gtb_false_iff in S; exists ZMin ];
      (split; [ intros []; cbn [faceDistance]; box_arith | ]);
      unfold touchesFace, resolvedAlong, resolvedAlongZ;
      box_arith; repeat split; box_arith.
Qed.


(** C4, amended: for a single box and a candidate detected inside it,
    [resolveCollisions] moves the candidate along exactly one horizontal
    axis so that the radius-inflated point lies exactly on the nearest side
    face, zeroes that axis' velocity component and leaves the other
    horizontal component of position and velocity unchanged, at every
    height of the candidate.  The vertical components are unchanged when
    the candidate is at or above 1.6; below 1.6 the floor clamp of the same
    call sets y = 1.6, zeroes the vertical velocity and sets grounded. *)
Theorem single_box_pushes_to_nearest_face
        (c : Collider) (target vel : Vector3) :
  intersectsBox target c = true ->
  let target' := fst (fst (resolveCollisions [c] target vel)) in
  let vel' := snd (fst (resolveCollisions [c] target vel)) in
  let grounded := snd (resolveCollisions [c] target vel) in
  exists f : Face,
    (forall g : Face, faceDistance c target f <= faceDistance c target g) /\
    touchesFace c target' f /\
    pushedAlong f target vel target' vel' /\
    ((floorHeight <= y target /\
      y target' = y target /\ y vel' = y vel /\ grounded = false) \/
     (y target < floorHeight /\
      y target' = floorHeight /\ y vel' = 0 /\ grounded = true)).
Proof.
  intros H target' vel' grounded. subst target' vel' grounded.
  destruct (resolveBoxes_single_push c target vel H) as (f & N & T & R).
  pose proof (resolveCollisions_vertical [c] target vel) as V.
  unfold resolveCollisions in *.
  destruct (resolveBoxes [c] target vel) as [t1 v1]; cbn [fst snd] in T, R.
  exists f. split; [ exact N | ].
  unfold clampFloor in *.
  destruct (Num.ltb (y t1) floorHeight); cbn [fst snd].
  - split; [ destruct f; exact T | ].
    split; [ | destruct V as [V | V]; [ right | left ]; tauto ].
    destruct f; cbn [resolvedAlong pushedAlong] in *;
      unfold resolvedAlongX, resolvedAlongZ, pushedAlongX, pushedAlongZ in *;
      cbn [setY x z]; tauto.
  - split; [ exact T | ].
    split; [ | destruct V as [V | V]; [ right | left ]; tauto ].
    destruct f; cbn [resolvedAlong pushedAlong] in *;
      unfold resolvedAlongX, resolvedAlongZ, pushedAlongX, pushedAlongZ in *;
      tauto.
Qed.

(** Evaluate the box test and the depths at concrete boxes and points. *)
Ltac box_eval :=
  unfold resolveCollider, intersectsBox, depthX, depthZ, box_min, box_max,
    createCollider, capsuleRadius, capsuleHeight, floorHeight, clone, Rmin;
  cbn [x y z add sub multiplyScalar setX setY setZ fst snd
         Collider.position Collider.size];
  repeat match goal with
         | |- context [Rle_dec ?a ?b] =>
             destruct (Rle_dec a b); [ try (exfalso; lra) | try (exfalso; lra) ]
         end;
  num_eval; cbn [andb orb negb].

Lemma single_box_pushes_to_nearest_face_witness :
  let c := createCollider (0, 15 / 10, -10) (8, 3, 2) in
  let target := mkVector3 (35 / 10) (15 / 10) (-98 / 10) in
  let vel := mkVector3 3 (-1) 2 in
  intersectsBox target c = true /\
  exists f : Face,
    (forall g : Face, faceDistance c target f <= faceDistance c target g) /\
    touchesFace c (fst (fst (resolveCollisions [c] target vel))) f /\
    pushedAlong f target vel (fst (fst (resolveCollisions [c] target vel)))
                (snd (fst (resolveCollisions [c] target vel))) /\
    ((floorHeight <= y target /\
      y (fst (fst (resolveCollisions [c] target vel))) = y target /\
      y (snd (fst (resolveCollisions [c] target vel))) = y vel /\
      snd (resolveCollisions [c] target vel) = false) \/
     (y target < floorHeight /\
      y (fst (fst (resolveCollisions [c] target vel))) = floorHeight /\
      y (snd (fst (resolveCollisions [c] target vel))) = 0 /\
      snd (resolveCollisions [c] target vel) = true)).
Proof.
  intros c target vel.
  assert (H : intersectsBox target c = true).
  { subst c target. box_eval. reflexivity. }
  split; [ exact H | ].
  exact (single_box_pushes_to_nearest_face c target vel H).
Defined.

(** C4, as stated, fails: a candidate detected inside the box below the
    floor height, as every candidate of a walking player is, leaves
    [resolveCollisions] with its height set to 1.6 and its vertical
    velocity zeroed besides the horizontal push. *)
Lemma push_below_floor_changes_vertical :
  let c := createCollider (0, 15 / 10, -10) (8, 3, 2) in
  let target := mkVector3 (35 / 10) (15 / 10) (-98 / 10) in
  let vel := mkVector3 3 (-1) 2 in
  intersectsBox target c = true /\
  y (fst (fst (resolveCollisions [c] target vel))) = 16 / 10 /\
  y (fst (fst (resolveCollisions [c] target vel))) <> y target /\
  y (snd (fst (resolveCollisions [c] target vel))) = 0 /\
  y (snd (fst (resolveCollisions [c] target vel))) <> y vel.
Proof.
  intros c target vel.
  assert (H : intersectsBox target c = true).
  { subst c target. box_eval. reflexivity. }
  pose proof (resolveCollisions_vertical [c] target vel) as V.
  destruct (resolveCollisions [c] target vel) as [[t' v'] g]. cbn [fst snd].
  assert (Y : y target = 15 / 10) by reflexivity.
  assert (W : y vel = -1) by reflexivity.
  unfold floorHeight in V. rewrite Y, W in *.
  destruct V as [(_ & Ht & Hv & _) | (F & _)]; [ | lra ].
  rewrite Ht, Hv. repeat split; try exact H; lra.
Qed.

(** C5, as stated, fails: at equal depths the push is along Z, and
    [velocity.x] is kept while [velocity.z] is zeroed.  The box is square
    and the point on its diagonal, so that both depths come from the same
    operations on the same numbers. *)
Lemma tie_is_resolved_along_z :
  let c := createCollider (0, 15 / 10, 0) (4, 3, 4) in
  let target := mkVector3 1 2 1 in
  let vel := mkVector3 1 0 1 in
  intersectsBox target c = true /\
  depthX target c = depthZ target c /\
  resolveCollider (target, vel) c =
  (mkVector3 1 2 (235 / 100), mkVector3 1 0 0).
Proof.
  intros c target vel; subst c target vel.
  split; [ | split ].
  - box_eval. reflexivity.
  - box_eval. lra.
  - box_eval. unfold setZ; cbn [x y z]. do 2 f_equal. lra.
Qed.

(** C5, amended: the push is along X only when depthX is strictly smaller;
    at equal depths (and whenever depthZ <= depthX) it is along Z and
    [velocity.z] is the component zeroed.  On the resolved axis the
    coordinate increases iff the candidate coordinate exceeds the collider
    centre coordinate. *)
Theorem tie_break_and_push_sign (c : Collider) (target vel : Vector3) :
  intersectsBox target c = true ->
  let target' := fst (resolveCollider (target, vel) c) in
  let vel' := snd (resolveCollider (target, vel) c) in
  (depthX target c < depthZ target c ->
   resolvedAlongX target vel target' vel' /\
   (x target < x target' <-> x (Collider.position c) < x target)) /\
  (depthZ target c <= depthX target c ->
   resolvedAlongZ target vel target' vel' /\
   (z target < z target' <-> z (Collider.position c) < z target)).
Proof.
  intros H target' vel'. subst target' vel'.
  pose proof (inner_gate _ _ H) as G.
  unfold resolveCollider. rewrite H, G. apply intersectsBox_true_iff in H.
  split; intros D.
  - apply ltb_true_iff in D as D'. rewrite D'.
    destruct (Num.gtb (x target) (x (Collider.position c))) eqn:S;
      [ apply gtb_true_iff in S | apply gtb_false_iff in S ];
      unfold resolvedAlongX; box_arith; repeat split; intros; box_arith.
  - apply ltb_false_iff in D as D'. rewrite D'.
    destruct (Num.gtb (z target) (z (Collider.position c))) eqn:S;
      [ apply gtb_true_iff in S | apply gtb_false_iff in S ];
      unfold resolvedAlongZ; box_arith; repeat split; intros; box_arith.
Qed.

Lemma tie_break_and_push_sign_witness :
  let c := createCollider (0, 15 / 10, 0) (4, 3, 4) in
  let target := mkVector3 1 2 1 in
  let vel := mkVector3 1 0 1 in
  intersectsBox target c = true /\
  depthZ target c <= depthX target c /\
  resolvedAlongZ target vel (fst (resolveCollider (target, vel) c))
                 (snd (resolveCollider (target, vel) c)).
Proof.
  intros c target vel.
  assert (H : intersectsBox target c = true).
  { subst c target. box_eval. reflexivity. }
  assert (D : depthZ target c <= depthX target c).
  { subst c target. box_eval. lra. }
  split; [ exact H | split; [ exact D | ] ].
  exact (proj1 (proj2 (tie_break_and_push_sign c target vel H) D)).
Defined.

(** ** Detection *)

Lemma not_inside_untouched (c : Collider) (tv : Vector3 * Vector3) :
  ~ insideBox (fst tv) c -> resolveCollider tv c = tv.
Proof.
  destruct tv as [target vel]; cbn [fst]. intros H. unfold resolveCollider.
  destruct (intersectsBox target c) eqn:E; [ | reflexivity ].
  apply intersectsBox_true_iff in E. contradiction.
Qed.

Lemma resolveBoxes_not_inside (cs : list Collider) (target vel : Vector3) :
  (forall c, In c cs -> ~ insideBox target c) ->
  resolveBoxes cs target vel = (target, vel).
Proof.
  intros H. unfold resolveBoxes. induction cs as [ | c cs IH ]; [ reflexivity | ].
  cbn [fold_left]. rewrite not_inside_untouched.
  - apply IH. intros c' Hc'. apply H. right; exact Hc'.
  - apply H. left; reflexivity.
Qed.

(** C6, as stated, fails: no candidate strictly outside a box is ever moved
    by the resolution step, however close to a face it is. *)
Lemma outside_candidate_never_pushed :
  ~ exists (c : Collider) (target vel : Vector3),
      outsideBox target c /\ inflatedOverlap target c /\
      resolveCollider (target, vel) c <> (target, vel).
Proof.
  intros (c & target & vel & Hout & _ & Hmoved). apply Hmoved.
  apply not_inside_untouched. cbn [fst]. unfold insideBox, outsideBox in *. lra.
Qed.

(** C6, amended: detection is the strict point-in-box test on the candidate
    itself, with no margin; a candidate inside none of the boxes (even
    within the capsule radius of a face) is left as it is by the whole
    loop, velocity included. *)
Theorem undetected_candidate_untouched
        (cs : list Collider) (target vel : Vector3) :
  (forall c, In c cs -> ~ insideBox target c) ->
  (forall c, In c cs -> intersectsBox target c = false) /\
  resolveBoxes cs target vel = (target, vel).
Proof.
  intros H. split.
  - intros c Hc. destruct (intersectsBox target c) eqn:E; [ | reflexivity ].
    apply intersectsBox_true_iff in E. destruct (H c Hc E).
  - apply resolveBoxes_not_inside. exact H.
Qed.

Lemma undetected_candidate_untouched_witness :
  let target := mkVector3 (41 / 10) 2 (-10) in
  let vel := mkVector3 (-3) 0 1 in
  outsideBox target (createCollider (0, 15 / 10, -10) (8, 3, 2)) /\
  inflatedOverlap target (createCollider (0, 15 / 10, -10) (8, 3, 2)) /\
  (forall c, In c colliders -> ~ insideBox target c) /\
  resolveBoxes colliders target vel = (target, vel).
Proof.
  intros target vel.
  assert (H : forall c, In c colliders -> ~ insideBox target c).
  { intros c Hc. unfold colliders in Hc. cbn [In] in Hc.
    repeat (destruct Hc as [Hc | Hc]; [ subst c | ]); try contradiction;
      unfold insideBox, box_min, box_max, createCollider, clone, target;
      cbn [x y z add sub multiplyScalar Collider.position Collider.size]; lra. }
  repeat split; try exact H;
    try (unfold box_min, box_max, createCollider, clone, target, capsuleRadius,
           capsuleHeight;
         cbn [x y z add sub multiplyScalar Collider.position Collider.size];
         lra).
  - unfold outsideBox, box_min, box_max, createCollider, clone, target.
    cbn [x y z add sub multiplyScalar Collider.position Collider.size].
    right; left; lra.
  - exact (proj2 (undetected_candidate_untouched colliders target vel H)).
Defined.

(** ** Vectors *)

Lemma vec_eq (a b : Vector3) :
  x a = x b -> y a = y b -> z a = z b -> a = b.
Proof. destruct a, b; cbn; intros -> -> ->; reflexivity. Qed.

Lemma normalize_y (v : Vector3) : y v = 0 -> y (normalize v) = 0.
Proof.
  intros H. unfold normalize, divideScalar, multiplyScalar; cbn [y].
  rewrite H. ring.
Qed.

Lemma tempFront_y (q : Quaternion) : y (tempFront q) = 0.
Proof. apply normalize_y. reflexivity. Qed.

Lemma tempSide_y (q : Quaternion) : y (tempSide q) = 0.
Proof. apply normalize_y. reflexivity. Qed.

Lemma moveDirection_y (q : Quaternion) (keys : MovementKeys) :
  y (moveDirection q keys) = 0.
Proof.
  unfold moveDirection, addScaledVector, multiplyScalar, copy; cbn [y].
  rewrite tempFront_y, tempSide_y. ring.
Qed.

(** ** Velocity integration *)

Lemma damping_0 : damping 0 = 1.
Proof. unfold damping. replace (-4 * 0) with 0 by ring. apply exp_0. Qed.

Lemma damping_pos (delta : R) : 0 < damping delta.
Proof. apply exp_pos. Qed.

Lemma damping_le_1 (delta : R) : 0 <= delta -> damping delta <= 1.
Proof.
  intros H. unfold damping. rewrite <- exp_0.
  destruct (Req_dec_T delta 0) as [-> | N].
  - replace (-4 * 0) with 0 by ring. lra.
  - left. apply exp_increasing. lra.
Qed.

Lemma steer_y (q : Quaternion) (keys : MovementKeys) (delta : R)
      (vel : Vector3) :
  y (steer q keys delta vel) = y vel.
Proof.
  unfold steer.
  destruct (_ || _); [ | reflexivity ].
  assert (E : y (if Num.gtb (lengthSq (moveDirection q keys)) 0
                 then addScaledVector vel (normalize (moveDirection q keys))
                                      (acceleration * delta)
                 else vel) = y vel).
  { destruct (Num.gtb _ _); [ | reflexivity ].
    unfold addScaledVector; cbn [y].
    rewrite (normalize_y _ (moveDirection_y q keys)). ring. }
  destruct (Num.gtb (currentSpeed _) _); [ | exact E ].
  cbn [y]. exact E.
Qed.

Lemma integrateVelocity_y (keys : MovementKeys) (delta : R) (p : Player) :
  jump keys && onGround p = false ->
  y (fst (integrateVelocity keys delta p)) = y (velocity p) - gravity * delta.
Proof.
  intros J. unfold integrateVelocity. rewrite J.
  cbn [fst]. unfold applyGravity, setY; cbn [y].
  rewrite steer_y. reflexivity.
Qed.

(** ** Frames that hit no box *)

(** Every box of the scene lies in the half-space z <= 5. *)
Lemma scene_clear_z (target : Vector3) :
  5 < z target -> forall c, In c colliders -> ~ insideBox target c.
Proof.
  intros Hz c Hc. unfold colliders in Hc. cbn [In] in Hc.
  repeat (destruct Hc as [Hc | Hc]; [ subst c | ]); try contradiction;
    unfold insideBox, box_min, box_max, createCollider, clone;
    cbn [x y z add sub multiplyScalar Collider.position Collider.size]; lra.
Qed.

(** An engaged frame whose candidate is inside no box. *)
Lemma useFrame_clear (cs : list Collider) (controls : option Controls)
      (keys : MovementKeys) (delta : R) (p : Player) :
  gateEngaged controls = true ->
  (forall c, In c cs -> ~ insideBox (candidate keys delta p) c) ->
  useFrame cs controls keys delta p =
  let '(t', v', g) := clampFloor (candidate keys delta p)
                                 (fst (integrateVelocity keys delta p)) in
  mkPlayer v' t' g (mkCamera t' (quaternion (camera p))).
Proof.
  intros G H. rewrite (useFrame_engaged _ _ _ _ _ G).
  unfold resolveCollisions. rewrite (resolveBoxes_not_inside _ _ _ H).
  reflexivity.
Qed.

Lemma steer_idle (q : Quaternion) (keys : MovementKeys) (delta : R)
      (vel : Vector3) :
  moveX keys = 0 -> moveZ keys = 0 -> steer q keys delta vel = vel.
Proof.
  intros HX HZ. unfold steer. rewrite HX, HZ.
  replace (Num.neqb 0 0) with false; [ reflexivity | ].
  symmetry. apply neqb_false_iff. reflexivity.
Qed.

Lemma moveX_INITIAL : moveX INITIAL_KEYS = 0.
Proof. unfold moveX; cbn. ring. Qed.

Lemma moveZ_INITIAL : moveZ INITIAL_KEYS = 0.
Proof. unfold moveZ; cbn. ring. Qed.

(** One idle frame of positive length grounds the spawn state. *)
Lemma idle_frame_grounds_spawn (delta : R) :
  0 < delta ->
  useFrame colliders (Some (mkControls true)) INITIAL_KEYS delta initialPlayer
  = groundedSpawn.
Proof.
  intros Hd.
  assert (V : fst (integrateVelocity INITIAL_KEYS delta initialPlayer)
              = mkVector3 0 (- (50 * delta)) 0).
  { unfold integrateVelocity. cbn [jump INITIAL_KEYS andb fst].
    rewrite (steer_idle _ _ _ _ moveX_INITIAL moveZ_INITIAL).
    unfold applyGravity, dampHorizontal, setY, gravity.
    cbn [x y z velocity initialPlayer zero].
    apply vec_eq; cbn [x y z]; ring. }
  assert (C : candidate INITIAL_KEYS delta initialPlayer
              = mkVector3 0 (16 / 10 - 50 * delta * delta) 6).
  { unfold candidate. rewrite V. unfold addScaledVector, clone.
    cbn [x y z position initialPlayer spawn]. apply vec_eq; cbn [x y z]; ring. }
  rewrite useFrame_clear; [ | reflexivity | ].
  - rewrite C, V. unfold clampFloor. cbn [y].
    replace (Num.ltb _ floorHeight) with true.
    + unfold groundedSpawn, spawn, setY, floorHeight, zero; cbn [x y z].
      reflexivity.
    + symmetry. apply ltb_true_iff. unfold floorHeight. nra.
  - rewrite C. apply scene_clear_z. cbn [z]. lra.
Qed.

(** ** Frame length *)

(** C7, as stated, fails: the delta is not clamped.  From the grounded
    spawn state (the state one idle frame after the start) with jump held,
    a one-second frame commits y = 11.6 while a frame of 1/20 s commits
    y = 2.1. *)
Lemma long_frame_differs_from_capped_frame :
  let locked := Some (mkControls true) in
  let p := useFrame colliders locked INITIAL_KEYS (1 / 60)
                    initialPlayer in
  let keys := mkKeys false false false false true false in
  1 / 20 < 1 /\
  y (position (useFrame colliders locked keys 1 p)) = 116 / 10 /\
  y (position (useFrame colliders locked keys (1 / 20) p)) = 21 / 10 /\
  useFrame colliders locked keys 1 p <> useFrame colliders locked keys (1 / 20) p.
Proof.
  intros locked p keys.
  assert (P : p = groundedSpawn)
    by (apply idle_frame_grounds_spawn; lra).
  assert (G : gateEngaged locked = true) by reflexivity.
  assert (Y : forall delta, 0 <= delta ->
            y (position (useFrame colliders locked keys delta p))
            = 16 / 10 + 10 * delta).
  { intros delta Hd.
    assert (C : y (candidate keys delta p) = 16 / 10 + 10 * delta).
    { rewrite P. unfold candidate, integrateVelocity, keys.
      cbn [jump onGround groundedSpawn andb fst].
      unfold addScaledVector, setY, clone.
      cbn [y position groundedSpawn spawn]. unfold jumpStrength. ring. }
    destruct (floor_frame_cases colliders locked keys delta p G)
      as [(Hlt & _) | (_ & Ht & _)].
    - rewrite C in Hlt. unfold floorHeight in Hlt. lra.
    - rewrite Ht. exact C. }
  assert (Y1 := Y 1 ltac:(lra)). assert (Y2 := Y (1 / 20) ltac:(lra)).
  repeat split; try lra.
  intros E. rewrite E in Y1. lra.
Qed.

(** C7, amended: the delta is used as received, without any cap.  In an
    engaged frame where no jump fires and the candidate stays at or above
    the floor, the committed vertical velocity is vy - 50 * delta and the
    committed height is y + (vy - 50 * delta) * delta, for every delta. *)
Theorem delta_is_not_clamped
        (cs : list Collider) (controls : option Controls)
        (keys : MovementKeys) (delta : R) (p : Player) :
  gateEngaged controls = true ->
  jump keys && onGround p = false ->
  floorHeight <= y (candidate keys delta p) ->
  let p' := useFrame cs controls keys delta p in
  y (velocity p') = y (velocity p) - 50 * delta /\
  y (position p') = y (position p) + (y (velocity p) - 50 * delta) * delta.
Proof.
  intros G J F p'. subst p'. rewrite (useFrame_engaged _ _ _ _ _ G).
  pose proof (resolveCollisions_vertical cs (candidate keys delta p)
                (fst (integrateVelocity keys delta p))) as V.
  destruct (resolveCollisions _ _ _) as [[t' v'] g]. cbn [position velocity].
  destruct V as [(Hlt & _) | (_ & Ht & Hv & _)]; [ lra | ].
  rewrite Ht, Hv. unfold candidate, addScaledVector, clone; cbn [y].
  rewrite (integrateVelocity_y _ _ _ J). unfold gravity. split; ring.
Qed.

Lemma delta_is_not_clamped_witness :
  let p := mkPlayer zero (mkVector3 0 100 6) false
                    (mkCamera (mkVector3 0 100 6) identityQ) in
  let p' := useFrame colliders (Some (mkControls true)) INITIAL_KEYS 1 p in
  y (velocity p') = -50 /\ y (position p') = 50.
Proof.
  intros p p'.
  assert (G : gateEngaged (Some (mkControls true)) = true) by reflexivity.
  assert (J : jump INITIAL_KEYS && onGround p = false) by reflexivity.
  assert (F : floorHeight <= y (candidate INITIAL_KEYS 1 p)).
  { unfold candidate, addScaledVector, clone; cbn [y].
    rewrite (integrateVelocity_y _ _ _ J).
    unfold floorHeight, gravity, p; cbn [y position velocity zero]. lra. }
  destruct (delta_is_not_clamped colliders (Some (mkControls true))
              INITIAL_KEYS 1 p G J F) as [Hv Hp].
  fold p' in Hv, Hp. rewrite Hv, Hp.
  unfold p; cbn [y position velocity zero]. split; lra.
Defined.

(** ** Frames of zero length *)

Lemma steer_delta_0 (q : Quaternion) (keys : MovementKeys) (vel : Vector3) :
  (moveX keys = 0 /\ moveZ keys = 0) \/ currentSpeed vel <= targetSpeed keys ->
  steer q keys 0 vel = vel.
Proof.
  intros H. unfold steer.
  destruct (Num.neqb (moveX keys) 0 || Num.neqb (moveZ keys) 0) eqn:M;
    [ | reflexivity ].
  assert (E : (if Num.gtb (lengthSq (moveDirection q keys)) 0
               then addScaledVector vel (normalize (moveDirection q keys))
                                    (acceleration * 0)
               else vel) = vel).
  { destruct (Num.gtb _ _); [ | reflexivity ].
    unfold addScaledVector. apply vec_eq; cbn [x y z]; ring. }
  rewrite E. destruct H as [[HX HZ] | H].
  - rewrite HX, HZ in M. apply orb_true_iff in M.
    destruct M as [M | M]; apply neqb_true_iff in M; contradiction.
  - replace (Num.gtb (currentSpeed vel) (targetSpeed keys)) with false;
      [ reflexivity | ].
    symmetry. apply gtb_false_iff. exact H.
Qed.

(** C2, as stated, fails: the grounded spawn state, reached after one idle
    frame, is not a fixed point of a zero-length frame, which clears the
    grounded flag. *)
Lemma zero_delta_frame_clears_grounded :
  let locked := Some (mkControls true) in
  let p := useFrame colliders locked INITIAL_KEYS (1 / 60) initialPlayer in
  onGround p = true /\
  onGround (useFrame colliders locked INITIAL_KEYS 0 p) = false /\
  useFrame colliders locked INITIAL_KEYS 0 p <> p.
Proof.
  intros locked p.
  assert (P : p = groundedSpawn).
  { apply idle_frame_grounds_spawn; lra. }
  assert (F : onGround (useFrame colliders locked INITIAL_KEYS 0 p) = false).
  { assert (G : gateEngaged locked = true) by reflexivity.
    destruct (floor_frame_cases colliders locked INITIAL_KEYS 0 p G)
      as [(Hlt & _) | (_ & _ & _ & Hg)]; [ | exact Hg ].
    exfalso. revert Hlt. rewrite P.
    unfold candidate, integrateVelocity. cbn [jump INITIAL_KEYS andb fst].
    rewrite (steer_idle _ _ _ _ moveX_INITIAL moveZ_INITIAL).
    unfold addScaledVector, applyGravity, setY, clone, floorHeight.
    cbn [x y z position velocity groundedSpawn spawn zero]. lra. }
  split; [ rewrite P; reflexivity | split; [ exact F | ] ].
  intros E. rewrite E in F. rewrite P in F. discriminate.
Qed.

Lemma integrateVelocity_delta_0 (keys : MovementKeys) (p : Player) :
  (moveX keys = 0 /\ moveZ keys = 0) \/
  currentSpeed (velocity p) <= targetSpeed keys ->
  integrateVelocity keys 0 p =
  if jump keys && onGround p
  then (setY (velocity p) jumpStrength, false)
  else (velocity p, onGround p).
Proof.
  intros H. unfold integrateVelocity.
  assert (D : dampHorizontal 0 (velocity p) = velocity p).
  { unfold dampHorizontal. rewrite damping_0. apply vec_eq; cbn [x y z]; ring. }
  rewrite D, (steer_delta_0 _ _ _ H).
  assert (A : applyGravity 0 (velocity p) = velocity p).
  { unfold applyGravity, setY. apply vec_eq; cbn [x y z]; ring. }
  rewrite A. reflexivity.
Qed.

(** C2, amended: with delta = 0 and the gate engaged, a frame keeps the
    position and the camera pose, keeps the velocity unless a jump fires
    (jump held while grounded sets the vertical velocity to 10), and
    always leaves grounded false; this for a state at or above the floor,
    inside no box, with the camera at the player position, and no faster
    than the frame's cap when a net directional input is held.  So the
    frame is a no-op exactly on airborne states. *)
Theorem zero_delta_frame
        (cs : list Collider) (controls : option Controls)
        (keys : MovementKeys) (p : Player) :
  gateEngaged controls = true ->
  floorHeight <= y (position p) ->
  (forall c, In c cs -> ~ insideBox (position p) c) ->
  (moveX keys = 0 /\ moveZ keys = 0) \/
  currentSpeed (velocity p) <= targetSpeed keys ->
  cam_position (camera p) = position p ->
  useFrame cs controls keys 0 p =
  mkPlayer (if jump keys && onGround p
            then setY (velocity p) jumpStrength else velocity p)
           (position p) false (camera p).
Proof.
  intros G F B S C.
  assert (K : candidate keys 0 p = position p).
  { unfold candidate, addScaledVector, clone. apply vec_eq; cbn [x y z]; ring. }
  rewrite useFrame_clear; [ | exact G | rewrite K; exact B ].
  rewrite K, (integrateVelocity_delta_0 _ _ S). unfold clampFloor.
  replace (Num.ltb (y (position p)) floorHeight) with false
    by (symmetry; apply ltb_false_iff; exact F).
  destruct p as [v pos g [cp cq]]; cbn in C |- *; subst cp.
  destruct (jump keys && g); reflexivity.
Qed.

Lemma zero_delta_frame_witness :
  useFrame colliders (Some (mkControls true)) INITIAL_KEYS 0 groundedSpawn
  = mkPlayer zero spawn false (mkCamera spawn identityQ).
Proof.
  refine (zero_delta_frame colliders (Some (mkControls true)) INITIAL_KEYS
            groundedSpawn _ _ _ _ _).
  - reflexivity.
  - unfold floorHeight; cbn. lra.
  - apply scene_clear_z. cbn. lra.
  - left. split; [ apply moveX_INITIAL | apply moveZ_INITIAL ].
  - reflexivity.
Defined.

(** ** Horizontal speed *)

Lemma currentSpeed_ext (a b : Vector3) :
  x a = x b -> z a = z b -> currentSpeed a = currentSpeed b.
Proof. unfold currentSpeed. intros -> ->. reflexivity. Qed.

Lemma currentSpeed_nonneg (v : Vector3) : 0 <= currentSpeed v.
Proof. apply sqrt_pos. Qed.

Lemma currentSpeed_zero : currentSpeed zero = 0.
Proof.
  unfold currentSpeed, zero; cbn [x z].
  replace (0 ^ 2 + 0 ^ 2) with 0 by ring. apply sqrt_0.
Qed.

Lemma currentSpeed_scale (v : Vector3) (k b : R) :
  0 <= k ->
  currentSpeed (mkVector3 (x v * k) b (z v * k)) = currentSpeed v * k.
Proof.
  intros Hk. unfold currentSpeed; cbn [x z].
  replace ((x v * k) ^ 2 + (z v * k) ^ 2) with ((x v ^ 2 + z v ^ 2) * (k * k))
    by ring.
  rewrite sqrt_mult; [ | nra | nra ].
  rewrite (sqrt_square k Hk). reflexivity.
Qed.

Lemma currentSpeed_setX_0 (v : Vector3) :
  currentSpeed (setX v 0) <= currentSpeed v.
Proof. unfold currentSpeed, setX; cbn [x z]. apply sqrt_le_1_alt. nra. Qed.

Lemma currentSpeed_setZ_0 (v : Vector3) :
  currentSpeed (setZ v 0) <= currentSpeed v.
Proof. unfold currentSpeed, setZ; cbn [x z]. apply sqrt_le_1_alt. nra. Qed.

Lemma targetSpeed_pos (keys : MovementKeys) : 0 < targetSpeed keys.
Proof. unfold targetSpeed. destruct (sprint keys); lra. Qed.

Lemma targetSpeed_le_12 (keys : MovementKeys) : targetSpeed keys <= 12.
Proof. unfold targetSpeed. destruct (sprint keys); lra. Qed.

(** The clamp at the end of the steering block. *)
Lemma clamp_speed (keys : MovementKeys) (v : Vector3) :
  currentSpeed
    (if Num.gtb (currentSpeed v) (targetSpeed keys)
     then mkVector3 (x v * (targetSpeed keys / currentSpeed v)) (y v)
                    (z v * (targetSpeed keys / currentSpeed v))
     else v)
  <= targetSpeed keys.
Proof.
  pose proof (targetSpeed_pos keys) as T.
  destruct (Num.gtb _ _) eqn:E;
    [ apply gtb_true_iff in E | apply gtb_false_iff in E; exact E ].
  rewrite currentSpeed_scale.
  - right. field. lra.
  - apply Rlt_le, Rdiv_lt_0_compat; lra.
Qed.

Lemma steer_speed_cap (q : Quaternion) (keys : MovementKeys) (delta : R)
      (vel : Vector3) :
  Num.neqb (moveX keys) 0 || Num.neqb (moveZ keys) 0 = true ->
  currentSpeed (steer q keys delta vel) <= targetSpeed keys.
Proof. intros M. unfold steer. rewrite M. apply clamp_speed. Qed.

Lemma integrateVelocity_xz (keys : MovementKeys) (delta : R) (p : Player) :
  let vel := steer (quaternion (camera p)) keys delta
                   (dampHorizontal delta (velocity p)) in
  x (fst (integrateVelocity keys delta p)) = x vel /\
  z (fst (integrateVelocity keys delta p)) = z vel.
Proof.
  intros vel. unfold integrateVelocity. fold vel.
  destruct (jump keys && onGround p); split; reflexivity.
Qed.

Lemma resolveCollider_speed (tv : Vector3 * Vector3) (c : Collider) :
  currentSpeed (snd (resolveCollider tv c)) <= currentSpeed (snd tv).
Proof.
  destruct tv as [target vel]. unfold resolveCollider.
  destruct (intersectsBox target c); [ | apply Rle_refl ].
  destruct (_ && _); [ | apply Rle_refl ].
  destruct (Num.ltb _ _); cbn [snd];
    [ apply currentSpeed_setX_0 | apply currentSpeed_setZ_0 ].
Qed.

Lemma resolveCollisions_speed (cs : list Collider) (target vel : Vector3) :
  currentSpeed (snd (fst (resolveCollisions cs target vel))) <= currentSpeed vel.
Proof.
  unfold resolveCollisions, resolveBoxes.
  assert (H : forall tv, currentSpeed (snd (fold_left resolveCollider cs tv))
                         <= currentSpeed (snd tv)).
  { induction cs as [ | c cs IH ]; intros tv; cbn [fold_left];
      [ apply Rle_refl | ].
    eapply Rle_trans; [ apply IH | apply resolveCollider_speed ]. }
  specialize (H (target, vel)).
  destruct (fold_left resolveCollider cs (target, vel)) as [t1 v1].
  cbn [snd] in H. unfold clampFloor.
  destruct (Num.ltb _ _); cbn [fst snd]; [ | exact H ].
  rewrite (currentSpeed_ext (setY v1 0) v1); [ exact H | | ]; reflexivity.
Qed.

(** Committed speed against the speed right after steering. *)
Lemma useFrame_speed (cs : list Collider) (controls : option Controls)
      (keys : MovementKeys) (delta : R) (p : Player) :
  gateEngaged controls = true ->
  currentSpeed (velocity (useFrame cs controls keys delta p)) <=
  currentSpeed (steer (quaternion (camera p)) keys delta
                      (dampHorizontal delta (velocity p))).
Proof.
  intros G. rewrite (useFrame_engaged _ _ _ _ _ G).
  pose proof (resolveCollisions_speed cs (candidate keys delta p)
                (fst (integrateVelocity keys delta p))) as H.
  destruct (resolveCollisions _ _ _) as [[t' v'] g]. cbn [fst snd] in H.
  cbn [velocity]. eapply Rle_trans; [ exact H | ].
  destruct (integrateVelocity_xz keys delta p) as [HX HZ].
  right. apply currentSpeed_ext; assumption.
Qed.

Lemma dampHorizontal_speed (delta : R) (vel : Vector3) :
  0 <= delta -> currentSpeed (dampHorizontal delta vel) <= currentSpeed vel.
Proof.
  intros Hd. unfold dampHorizontal.
  rewrite currentSpeed_scale by (left; apply damping_pos).
  pose proof (currentSpeed_nonneg vel). pose proof (damping_le_1 delta Hd).
  pose proof (damping_pos delta). nra.
Qed.

Lemma steer_not_steering (q : Quaternion) (keys : MovementKeys) (delta : R)
      (vel : Vector3) :
  steering keys = false -> steer q keys delta vel = vel.
Proof. unfold steering, steer. intros ->. reflexivity. Qed.

Lemma useFrame_speed_12 (cs : list Collider) (controls : option Controls)
      (keys : MovementKeys) (delta : R) (p : Player) :
  0 <= delta ->
  currentSpeed (velocity p) <= 12 ->
  currentSpeed (velocity (useFrame cs controls keys delta p)) <= 12.
Proof.
  intros Hd Hp. destruct (gateEngaged controls) eqn:G.
  - eapply Rle_trans; [ apply (useFrame_speed _ _ _ _ _ G) | ].
    destruct (steering keys) eqn:S.
    + eapply Rle_trans; [ apply (steer_speed_cap _ _ _ _ S) | ].
      apply targetSpeed_le_12.
    + rewrite (steer_not_steering _ _ _ _ S).
      eapply Rle_trans; [ apply (dampHorizontal_speed _ _ Hd) | exact Hp ].
  - unfold useFrame. rewrite G. exact Hp.
Qed.

(** C3, amended: in an engaged frame with a net directional input the
    committed horizontal speed is at most the cap of that frame's sprint
    flag (12 held, 6 not); in a frame without one the speed is not capped
    but, for delta >= 0, does not exceed its value before the frame; and
    in every state reached from the spawn state by frames of delta >= 0
    the speed is at most 12. *)
Theorem speed_cap_when_steering
        (cs : list Collider) (controls : option Controls)
        (keys : MovementKeys) (delta : R) (p : Player)
        (frames : list Frame) :
  gateEngaged controls = true ->
  Forall (fun f => 0 <= f_delta f) frames ->
  let p' := useFrame cs controls keys delta p in
  (steering keys = true -> currentSpeed (velocity p') <= targetSpeed keys) /\
  (steering keys = false -> 0 <= delta ->
   currentSpeed (velocity p') <= currentSpeed (velocity p)) /\
  currentSpeed (velocity (runFrames cs frames initialPlayer)) <= 12.
Proof.
  intros G Hfs p'. subst p'. repeat split.
  - intros S. eapply Rle_trans; [ apply (useFrame_speed _ _ _ _ _ G) | ].
    apply (steer_speed_cap _ _ _ _ S).
  - intros S Hd. eapply Rle_trans; [ apply (useFrame_speed _ _ _ _ _ G) | ].
    rewrite (steer_not_steering _ _ _ _ S).
    apply (dampHorizontal_speed _ _ Hd).
  - induction frames as [ | f fs IH ] using rev_ind.
    + change (currentSpeed zero <= 12). rewrite currentSpeed_zero. lra.
    + rewrite runFrames_snoc. apply Forall_app in Hfs. destruct Hfs as [Hfs Hf].
      unfold frameStep. apply useFrame_speed_12; [ | apply IH; exact Hfs ].
      inversion Hf; assumption.
Qed.

(** ** Running straight ahead *)

Lemma normalize_lengthSq (v : Vector3) :
  0 < lengthSq v -> lengthSq (normalize v) = 1.
Proof.
  intros H. unfold normalize, length, Num.or_else.
  pose proof (sqrt_lt_R0 _ H) as L.
  pose proof (sqrt_sqrt (lengthSq v) (Rlt_le _ _ H)) as LL.
  destruct (Req_dec_T (sqrt (lengthSq v)) 0) as [E | N]; [ lra | ].
  set (l := sqrt (lengthSq v)) in *.
  unfold divideScalar, multiplyScalar, lengthSq at 1; cbn [x y z].
  replace (x v * (1 / l) * (x v * (1 / l)) + y v * (1 / l) * (y v * (1 / l))
           + z v * (1 / l) * (z v * (1 / l)))
    with (lengthSq v * (1 / l * (1 / l))) by (unfold lengthSq; ring).
  rewrite <- LL. field. exact N.
Qed.

Lemma normalize_unit (v : Vector3) : lengthSq v = 1 -> normalize v = v.
Proof.
  intros H. unfold normalize, length, Num.or_else. rewrite H, sqrt_1.
  destruct (Req_dec_T 1 0) as [E | N]; [ lra | ].
  unfold divideScalar, multiplyScalar. apply vec_eq; cbn [x y z]; field.
Qed.

Lemma aligned_speed (q : Quaternion) (keys : MovementKeys) (s : R) (p : Player) :
  0 < lengthSq (moveDirection q keys) -> 0 <= s ->
  aligned q keys s p -> currentSpeed (velocity p) = s.
Proof.
  intros Hdir Hs [HX HZ]. unfold currentSpeed. rewrite HX, HZ.
  pose proof (normalize_lengthSq _ Hdir) as U. fold (heading q keys) in U.
  assert (Y : y (heading q keys) = 0)
    by apply (normalize_y _ (moveDirection_y q keys)).
  unfold lengthSq in U. rewrite Y in U.
  replace ((s * x (heading q keys)) ^ 2 + (s * z (heading q keys)) ^ 2)
    with (s * s * (x (heading q keys) * x (heading q keys) + 0 * 0
                   + z (heading q keys) * z (heading q keys))) by ring.
  rewrite U, Rmult_1_r. apply sqrt_square. exact Hs.
Qed.

Section StraightRun.

Variable cs : list Collider.
Variable q : Quaternion.
Variable keys : MovementKeys.
Variable delta : R.

Hypothesis Hsteer : steering keys = true.
Hypothesis Hdir : 0 < lengthSq (moveDirection q keys).
Hypothesis Hdelta : 0 <= delta.

Lemma speedStep_nonneg (s : R) :
  0 <= s -> 0 <= speedStep (targetSpeed keys) delta s.
Proof.
  intros Hs. unfold speedStep, acceleration.
  pose proof (damping_pos delta). pose proof (targetSpeed_pos keys).
  apply Rmin_glb; nra.
Qed.

Lemma speedAfter_nonneg (n : nat) : 0 <= speedAfter (targetSpeed keys) delta n.
Proof.
  induction n as [ | n IH ]; cbn [speedAfter];
    [ apply Rle_refl | apply speedStep_nonneg, IH ].
Qed.

Lemma speedAfter_le_cap (n : nat) :
  speedAfter (targetSpeed keys) delta n <= targetSpeed keys.
Proof.
  destruct n as [ | n ]; cbn [speedAfter].
  - left. apply targetSpeed_pos.
  - apply Rmin_r.
Qed.

(** Damping, acceleration and clamp on a velocity along the heading. *)
Lemma steer_heading (vel : Vector3) (s : R) :
  0 <= s ->
  x vel = s * x (heading q keys) ->
  z vel = s * z (heading q keys) ->
  let vel' := steer q keys delta (dampHorizontal delta vel) in
  x vel' = speedStep (targetSpeed keys) delta s * x (heading q keys) /\
  z vel' = speedStep (targetSpeed keys) delta s * z (heading q keys).
Proof.
  intros Hs HX HZ vel'. subst vel'. unfold steer.
  unfold steering in Hsteer. rewrite Hsteer.
  replace (Num.gtb (lengthSq (moveDirection q keys)) 0) with true
    by (symmetry; apply gtb_true_iff; exact Hdir).
  fold (heading q keys).
  set (v1 := addScaledVector (dampHorizontal delta vel) (heading q keys)
                             (acceleration * delta)).
  set (s1 := s * damping delta + acceleration * delta).
  assert (X1 : x v1 = s1 * x (heading q keys)).
  { unfold v1, s1, addScaledVector, dampHorizontal; cbn [x]. rewrite HX. ring. }
  assert (Z1 : z v1 = s1 * z (heading q keys)).
  { unfold v1, s1, addScaledVector, dampHorizontal; cbn [z]. rewrite HZ. ring. }
  assert (P1 : 0 <= s1).
  { unfold s1, acceleration. pose proof (damping_pos delta). nra. }
  assert (S1 : currentSpeed v1 = s1).
  { apply (aligned_speed q keys s1 (mkPlayer v1 zero false (mkCamera zero q)));
      [ exact Hdir | exact P1 | split; assumption ]. }
  rewrite S1. unfold speedStep. fold s1.
  pose proof (targetSpeed_pos keys) as T.
  destruct (Num.gtb s1 (targetSpeed keys)) eqn:E.
  - apply gtb_true_iff in E. rewrite Rmin_right by lra.
    cbn [x z]. rewrite X1, Z1. split; field; lra.
  - apply gtb_false_iff in E. rewrite Rmin_left by lra. split; assumption.
Qed.

(** One engaged frame that hits no box, on a state moving along the
    heading. *)
Lemma frame_straight (p : Player) (s : R) :
  quaternion (camera p) = q ->
  0 <= s ->
  aligned q keys s p ->
  (forall c, In c cs -> ~ insideBox (candidate keys delta p) c) ->
  let p' := useFrame cs (Some (mkControls true)) keys delta p in
  let s' := speedStep (targetSpeed keys) delta s in
  quaternion (camera p') = q /\
  aligned q keys s' p' /\
  x (position p') = x (position p) + s' * x (heading q keys) * delta /\
  z (position p') = z (position p) + s' * z (heading q keys) * delta.
Proof.
  intros Hq Hs [HX HZ] Hclear p' s'. subst p'.
  rewrite useFrame_clear; [ | reflexivity | exact Hclear ].
  destruct (integrateVelocity_xz keys delta p) as [VX VZ].
  rewrite Hq in VX, VZ.
  destruct (steer_heading (velocity p) s Hs HX HZ) as [SX SZ].
  fold s' in SX, SZ. rewrite SX in VX. rewrite SZ in VZ.
  unfold clampFloor, aligned.
  destruct (Num.ltb _ _);
    cbn [camera quaternion velocity position setY x z];
    unfold candidate, addScaledVector, clone; cbn [x z];
    rewrite VX, VZ; repeat split; auto.
Qed.

End StraightRun.

Lemma travelled_nonneg (keys : MovementKeys) (delta : R) (n : nat) :
  0 <= delta -> 0 <= travelled (targetSpeed keys) delta n.
Proof.
  intros Hd. induction n as [ | n IH ]; cbn [travelled]; [ apply Rle_refl | ].
  pose proof (speedAfter_nonneg keys delta Hd (S n)). nra.
Qed.

Lemma run_straight (cs : list Collider) (q : Quaternion) (keys : MovementKeys)
      (delta : R) (p0 : Player) (n : nat) :
  steering keys = true ->
  0 < lengthSq (moveDirection q keys) ->
  0 <= delta ->
  x (velocity p0) = 0 -> z (velocity p0) = 0 ->
  clearPath cs q keys delta p0 n ->
  let p := runFrames cs (repeat (steadyFrame q keys delta) n) p0 in
  aligned q keys (speedAfter (targetSpeed keys) delta n) p /\
  x (position p) =
    x (position p0) + travelled (targetSpeed keys) delta n * x (heading q keys) /\
  z (position p) =
    z (position p0) + travelled (targetSpeed keys) delta n * z (heading q keys).
Proof.
  intros Hsteer Hdir Hd HX HZ. induction n as [ | n IH ]; intros Hclear p.
  - subst p. cbn [repeat runFrames fold_left speedAfter travelled].
    unfold aligned. rewrite HX, HZ. repeat split; auto; ring.
  - subst p. cbn [repeat]. rewrite repeat_cons, runFrames_snoc.
    unfold frameStep. cbn [steadyFrame f_controls f_keys f_look f_delta].
    destruct IH as (Ia & Ix & Iz).
    { intros k Hk. apply Hclear. lia. }
    destruct (frame_straight cs q keys delta Hsteer Hdir Hd
                (lookAround q
                   (runFrames cs (repeat (steadyFrame q keys delta) n) p0))
                (speedAfter (targetSpeed keys) delta n) eq_refl
                (speedAfter_nonneg keys delta Hd n) Ia
                (Hclear n ltac:(lia)))
      as (_ & Fa & Fx & Fz).
    cbn [lookAround position] in Fx, Fz.
    split; [ exact Fa | split ].
    + rewrite Fx, Ix. cbn [travelled speedAfter]. ring.
    + rewrite Fz, Iz. cbn [travelled speedAfter]. ring.
Qed.

(** In the scene, a run that starts beyond z = 5 and heads towards
    positive z meets no box. *)
Lemma scene_clearPath (q : Quaternion) (keys : MovementKeys) (delta : R)
      (p0 : Player) (n : nat) :
  steering keys = true ->
  0 < lengthSq (moveDirection q keys) ->
  0 <= delta ->
  x (velocity p0) = 0 -> z (velocity p0) = 0 ->
  0 <= z (heading q keys) ->
  5 < z (position p0) ->
  clearPath colliders q keys delta p0 n.
Proof.
  intros Hsteer Hdir Hd HX HZ Hh Hz.
  induction n as [ | n IH ]; intros k Hk; [ inversion Hk | ].
  assert (Hk' : (k < n)%nat \/ k = n) by lia. clear Hk.
  destruct Hk' as [Hk | ->]; [ apply IH; exact Hk | ].
  destruct (run_straight colliders q keys delta p0 n Hsteer Hdir Hd HX HZ IH)
    as ([Iax Iaz] & _ & Iz).
  set (p := runFrames colliders (repeat (steadyFrame q keys delta) n) p0) in *.
  apply scene_clear_z.
  destruct (integrateVelocity_xz keys delta (lookAround q p)) as [_ VZ].
  cbn [lookAround camera quaternion velocity] in VZ.
  destruct (steer_heading q keys delta Hsteer Hdir Hd (velocity p)
              (speedAfter (targetSpeed keys) delta n)
              (speedAfter_nonneg keys delta Hd n) Iax Iaz) as [_ SZ].
  unfold candidate, addScaledVector, clone; cbn [z].
  rewrite VZ, SZ. cbn [lookAround position]. rewrite Iz.
  pose proof (Rmult_le_pos _ _ (travelled_nonneg keys delta n Hd) Hh).
  pose proof (Rmult_le_pos _ _
                (Rmult_le_pos _ _
                   (speedStep_nonneg keys delta Hd _
                      (speedAfter_nonneg keys delta Hd n)) Hh) Hd).
  lra.
Qed.

(** *** Sixty frames per second *)

Lemma damping_60 : 14 / 15 <= damping (1 / 60).
Proof.
  unfold damping. pose proof (exp_ineq1_le (-4 * (1 / 60))). lra.
Qed.

(** Below the level [L] a frame gains at least [6/10 - L/15]; at or above
    it the speed stays at or above [L]. *)
Lemma speedStep_lower (T L s : R) :
  L <= T -> 0 <= L <= 9 -> 0 <= s ->
  Rmin L (s + (6 / 10 - L / 15)) <= speedStep T (1 / 60) s.
Proof.
  intros HT HL Hs. unfold speedStep, acceleration.
  pose proof damping_60 as D.
  apply Rmin_glb.
  - destruct (Rle_lt_dec s L) as [Hle | Hgt].
    + eapply Rle_trans; [ apply Rmin_r | ]. nra.
    + eapply Rle_trans; [ apply Rmin_l | ]. nra.
  - eapply Rle_trans; [ apply Rmin_l | exact HT ].
Qed.

Lemma speedAfter_lower (keys : MovementKeys) (L : R) (n : nat) :
  L <= targetSpeed keys -> 0 <= L <= 9 ->
  Rmin L (INR n * (6 / 10 - L / 15)) <= speedAfter (targetSpeed keys) (1 / 60) n.
Proof.
  intros HT HL. induction n as [ | n IH ].
  - cbn [speedAfter INR]. rewrite Rmult_0_l. apply Rmin_r.
  - cbn [speedAfter]. rewrite S_INR.
    eapply Rle_trans;
      [ | apply (speedStep_lower _ L _ HT HL);
          apply speedAfter_nonneg; lra ].
    apply Rmin_glb; [ apply Rmin_l | ].
    revert IH. unfold Rmin.
    repeat match goal with
           | |- context [Rle_dec ?a ?b] => destruct (Rle_dec a b)
           end; intros; lra.
Qed.

(** *** Forward key, level camera *)

Lemma steering_forward (keys : MovementKeys) :
  moveZ keys = -1 -> steering keys = true.
Proof.
  intros HZ. unfold steering. rewrite HZ. apply orb_true_iff. right.
  apply neqb_true_iff. lra.
Qed.

Lemma moveDirection_forward (q : Quaternion) (keys : MovementKeys) :
  moveX keys = 0 -> moveZ keys = -1 ->
  moveDirection q keys = multiplyScalar (tempFront q) (-1).
Proof.
  intros HX HZ. unfold moveDirection, addScaledVector, multiplyScalar, copy.
  rewrite HX, HZ. apply vec_eq; cbn [x y z]; ring.
Qed.

Lemma forward_has_direction (q : Quaternion) (keys : MovementKeys) :
  moveX keys = 0 -> moveZ keys = -1 ->
  0 < lengthSq (frontProjection q) ->
  0 < lengthSq (moveDirection q keys).
Proof.
  intros HX HZ H. rewrite (moveDirection_forward _ _ HX HZ).
  pose proof (normalize_lengthSq _ H) as U.
  change (normalize (frontProjection q)) with (tempFront q) in U.
  unfold multiplyScalar, lengthSq in *; cbn [x y z]. nra.
Qed.

Lemma forwardOnly_moves : moveX forwardOnly = 0 /\ moveZ forwardOnly = -1.
Proof. unfold moveX, moveZ; cbn. split; ring. Qed.

Lemma sprintForward_moves : moveX sprintForward = 0 /\ moveZ sprintForward = -1.
Proof. unfold moveX, moveZ; cbn. split; ring. Qed.

Lemma frontProjection_identity : frontProjection identityQ = mkVector3 0 0 (-1).
Proof.
  unfold frontProjection, applyQuaternion, setY, set, identityQ.
  apply vec_eq; cbn [x y z qx qy qz qw]; ring.
Qed.

Lemma heading_identity (keys : MovementKeys) :
  moveX keys = 0 -> moveZ keys = -1 ->
  heading identityQ keys = mkVector3 0 0 1.
Proof.
  intros HX HZ. unfold heading. rewrite (moveDirection_forward _ _ HX HZ).
  assert (F : tempFront identityQ = mkVector3 0 0 (-1)).
  { change (tempFront identityQ) with (normalize (frontProjection identityQ)).
    rewrite frontProjection_identity. apply normalize_unit.
    unfold lengthSq; cbn [x y z]. ring. }
  rewrite F.
  assert (M : multiplyScalar (mkVector3 0 0 (-1)) (-1) = mkVector3 0 0 1).
  { unfold multiplyScalar. apply vec_eq; cbn [x y z]; ring. }
  rewrite M. apply normalize_unit. unfold lengthSq; cbn [x y z]. ring.
Qed.

(** A run from the spawn state in the scene, forward key held, camera at
    its initial orientation: no box is ever met. *)
Lemma spawn_clearPath (keys : MovementKeys) (delta : R) (n : nat) :
  moveX keys = 0 -> moveZ keys = -1 -> 0 <= delta ->
  clearPath colliders identityQ keys delta initialPlayer n.
Proof.
  intros HX HZ Hd. apply scene_clearPath; auto.
  - apply steering_forward; exact HZ.
  - apply forward_has_direction; auto.
    rewrite frontProjection_identity. unfold lengthSq; cbn [x y z]. lra.
  - rewrite (heading_identity _ HX HZ). cbn [z]. lra.
  - cbn. lra.
Qed.

Lemma INR_60 : INR 60 = 60.
Proof. rewrite INR_IZR_INZ. reflexivity. Qed.

Lemma INR_75 : INR 75 = 75.
Proof. rewrite INR_IZR_INZ. reflexivity. Qed.

(** C9: from rest, forward key only, no sprint, no box met, camera held at
    an orientation whose forward axis has a horizontal component: sixty
    frames of 1/60 s end at horizontal speed exactly 6, and no frame on the
    way commits a speed above 6. *)
Theorem walk_one_second_reaches_cap
        (cs : list Collider) (q : Quaternion) (p0 : Player) :
  velocity p0 = zero ->
  0 < lengthSq (frontProjection q) ->
  clearPath cs q forwardOnly (1 / 60) p0 60 ->
  currentSpeed
    (velocity (runFrames cs (repeat (steadyFrame q forwardOnly (1 / 60)) 60) p0))
  = 6 /\
  forall k, (k <= 60)%nat ->
    currentSpeed
      (velocity (runFrames cs (repeat (steadyFrame q forwardOnly (1 / 60)) k) p0))
    <= 6.
Proof.
  intros Hrest Hcam Hclear.
  destruct forwardOnly_moves as [HX HZ].
  pose proof (steering_forward _ HZ) as Hsteer.
  pose proof (forward_has_direction _ _ HX HZ Hcam) as Hdir.
  assert (Hd : 0 <= 1 / 60) by lra.
  assert (S : forall k, (k <= 60)%nat ->
            currentSpeed
              (velocity
                 (runFrames cs (repeat (steadyFrame q forwardOnly (1 / 60)) k) p0))
            = speedAfter 6 (1 / 60) k).
  { intros k Hk.
    destruct (run_straight cs q forwardOnly (1 / 60) p0 k Hsteer Hdir Hd)
      as (Ha & _).
    - rewrite Hrest. reflexivity.
    - rewrite Hrest. reflexivity.
    - intros j Hj. apply Hclear. lia.
    - apply (aligned_speed _ _ _ _ Hdir (speedAfter_nonneg _ _ Hd k) Ha). }
  split.
  - rewrite (S 60%nat (le_n 60)). apply Rle_antisym.
    + apply (speedAfter_le_cap forwardOnly (1 / 60) 60).
    + pose proof (speedAfter_lower forwardOnly 6 60) as L.
      rewrite INR_60 in L. change (targetSpeed forwardOnly) with 6 in L.
      rewrite Rmin_left in L by lra. apply L; lra.
  - intros k Hk. rewrite (S k Hk).
    apply (speedAfter_le_cap forwardOnly (1 / 60) k).
Qed.

Lemma walk_one_second_reaches_cap_witness :
  currentSpeed
    (velocity
       (runFrames colliders (repeat (steadyFrame identityQ forwardOnly (1 / 60)) 60)
                  initialPlayer))
  = 6.
Proof.
  refine (proj1 (walk_one_second_reaches_cap colliders identityQ initialPlayer
                   eq_refl _ _)).
  - rewrite frontProjection_identity. unfold lengthSq; cbn [x y z]. lra.
  - destruct forwardOnly_moves as [HX HZ].
    apply (spawn_clearPath forwardOnly (1 / 60) 60 HX HZ). lra.
Defined.

(** An engaged frame without net directional input that hits no box only
    damps the horizontal speed. *)
Lemma idle_frame_speed (cs : list Collider) (keys : MovementKeys) (delta : R)
      (p : Player) :
  steering keys = false ->
  (forall c, In c cs -> ~ insideBox (candidate keys delta p) c) ->
  currentSpeed (velocity (useFrame cs (Some (mkControls true)) keys delta p))
  = currentSpeed (velocity p) * damping delta.
Proof.
  intros S Hclear. rewrite useFrame_clear; [ | reflexivity | exact Hclear ].
  destruct (integrateVelocity_xz keys delta p) as [VX VZ].
  rewrite (steer_not_steering _ _ _ _ S) in VX, VZ.
  rewrite <- (currentSpeed_scale (velocity p) (damping delta) (y (velocity p)))
    by (left; apply damping_pos).
  fold (dampHorizontal delta (velocity p)).
  unfold clampFloor. destruct (Num.ltb _ _); cbn [velocity];
    apply currentSpeed_ext; cbn [setY x z]; assumption.
Qed.

(** C3, as stated, fails: in the scene, from the spawn state and with the
    camera left as it starts, 75 frames of sprinting forward at 1/60 s
    followed by one frame with every key released leave a horizontal speed
    above the walk cap 6 although the sprint flag is not held in that
    frame. *)
Lemma walk_cap_exceeded_after_release :
  let frames := repeat (steadyFrame identityQ sprintForward (1 / 60)) 75
                ++ [steadyFrame identityQ INITIAL_KEYS (1 / 60)] in
  sprint INITIAL_KEYS = false /\
  6 < currentSpeed (velocity (runFrames colliders frames initialPlayer)).
Proof.
  intros frames. split; [ reflexivity | ]. subst frames.
  rewrite runFrames_snoc. unfold frameStep.
  cbn [steadyFrame f_controls f_keys f_look f_delta].
  destruct sprintForward_moves as [HX HZ].
  assert (Hd : 0 <= 1 / 60) by lra.
  pose proof (steering_forward _ HZ) as Hsteer.
  assert (Hdir : 0 < lengthSq (moveDirection identityQ sprintForward)).
  { apply forward_has_direction; auto.
    rewrite frontProjection_identity. unfold lengthSq; cbn [x y z]. lra. }
  destruct (run_straight colliders identityQ sprintForward (1 / 60)
              initialPlayer 75 Hsteer Hdir Hd eq_refl eq_refl
              (spawn_clearPath _ _ 75 HX HZ Hd))
    as (Ha & _ & Pz).
  set (p := runFrames colliders
              (repeat (steadyFrame identityQ sprintForward (1 / 60)) 75)
              initialPlayer) in *.
  pose proof (speedAfter_nonneg sprintForward (1 / 60) Hd 75) as S0.
  pose proof (aligned_speed _ _ _ _ Hdir S0 Ha) as Sp.
  assert (Sidle : steering INITIAL_KEYS = false).
  { unfold steering. rewrite moveX_INITIAL, moveZ_INITIAL.
    replace (Num.neqb 0 0) with false; [ reflexivity | ].
    symmetry; apply neqb_false_iff; reflexivity. }
  pose proof (speedAfter_lower sprintForward (75 / 10) 75) as L.
  rewrite INR_75 in L. change (targetSpeed sprintForward) with 12 in L.
  rewrite Rmin_left in L by lra.
  specialize (L ltac:(lra) ltac:(lra)).
  rewrite idle_frame_speed; [ | exact Sidle | ].
  - cbn [lookAround velocity]. rewrite Sp. pose proof damping_60.
    change (targetSpeed sprintForward) with 12. nra.
  - apply scene_clear_z.
    destruct (integrateVelocity_xz INITIAL_KEYS (1 / 60) (lookAround identityQ p))
      as [_ VZ].
    rewrite (steer_not_steering _ _ _ _ Sidle) in VZ.
    unfold candidate, addScaledVector, clone; cbn [z]. rewrite VZ.
    unfold dampHorizontal; cbn [z lookAround velocity position].
    destruct Ha as [_ Az]. rewrite Az, Pz.
    rewrite (heading_identity _ HX HZ). cbn [z initialPlayer position spawn].
    pose proof (travelled_nonneg sprintForward (1 / 60) 75 Hd).
    pose proof (damping_pos (1 / 60)).
    pose proof (Rmult_le_pos _ _ S0 (Rlt_le _ _ (damping_pos (1 / 60)))).
    nra.
Qed.

Lemma speed_cap_when_steering_witness :
  currentSpeed
    (velocity (useFrame colliders (Some (mkControls true)) sprintForward (1 / 60)
                        initialPlayer))
  <= 12.
Proof.
  assert (G : gateEngaged (Some (mkControls true)) = true) by reflexivity.
  assert (F : Forall (fun f => 0 <= f_delta f)
                     [steadyFrame identityQ sprintForward (1 / 60)]).
  { constructor; [ cbn; lra | constructor ]. }
  destruct (speed_cap_when_steering colliders (Some (mkControls true))
              sprintForward (1 / 60) initialPlayer
              [steadyFrame identityQ sprintForward (1 / 60)] G F) as [H _].
  apply H. apply steering_forward. apply sprintForward_moves.
Defined.

(** * Further properties *)

(** ** Input state tracker *)

Lemma lowerChar_upperChar (c : Ascii.ascii) :
  Keyboard.lowerChar (upperChar c) = Keyboard.lowerChar c.
Proof. destruct c as [[] [] [] [] [] [] [] []]; reflexivity. Qed.

Lemma toLowerCase_asciiUpper (s : String.string) :
  Keyboard.toLowerCase (asciiUpper s) = Keyboard.toLowerCase s.
Proof.
  induction s as [ | c r IH ]; [ reflexivity | ].
  cbn [asciiUpper Keyboard.toLowerCase]. rewrite lowerChar_upperChar, IH.
  reflexivity.
Qed.

(** X1: key names are matched whatever the case of their ASCII letters:
    a key and its capitalised form have the same effect on every state. *)
Theorem toggleKey_ignores_case
        (key : String.string) (pressed : bool) (prev : MovementKeys) :
  Keyboard.toggleKey (asciiUpper key) pressed prev
  = Keyboard.toggleKey key pressed prev.
Proof. unfold Keyboard.toggleKey. rewrite toLowerCase_asciiUpper. reflexivity. Qed.

(** What [toggleKey] does to each flag. *)
Lemma toggleKey_flag (key : String.string) (pressed : bool)
      (prev : MovementKeys) (a : Action) :
  flag a (Keyboard.toggleKey key pressed prev)
  = match keyAction key with
    | Some b => if Action_eqb a b then pressed else flag a prev
    | None => flag a prev
    end.
Proof.
  unfold Keyboard.toggleKey, keyAction, keyBindings. cbn [find fst snd].
  repeat match goal with
         | |- context [String.eqb ?k ?n] =>
             destruct (String.eqb k n);
             [ cbn [orb option_map snd]; destruct a; reflexivity | ]
         end.
  cbn [orb option_map]. reflexivity.
Qed.

Lemma keys_ext (s t : MovementKeys) :
  (forall a, flag a s = flag a t) -> s = t.
Proof.
  intros H. destruct s, t.
  pose proof (H Forward). pose proof (H Backward). pose proof (H Left).
  pose proof (H Right). pose proof (H Jump). pose proof (H Sprint).
  cbn in *. congruence.
Qed.

Lemma handleKey_flag (keys : MovementKeys) (e : Keyboard.KeyboardEvent)
      (a : Action) :
  flag a (Keyboard.handleKey keys e)
  = if concerns a e then eventPressed e else flag a keys.
Proof.
  unfold concerns. destruct e as [k | k]; cbn [Keyboard.handleKey eventKey eventPressed];
    rewrite toggleKey_flag; destruct (keyAction k); try reflexivity;
    destruct (Action_eqb a a0); reflexivity.
Qed.

Lemma handleKeys_snoc (events : list Keyboard.KeyboardEvent)
      (e : Keyboard.KeyboardEvent) (keys : MovementKeys) :
  Keyboard.handleKeys (events ++ [e]) keys
  = Keyboard.handleKey (Keyboard.handleKeys events keys) e.
Proof. unfold Keyboard.handleKeys. rewrite fold_left_app. reflexivity. Qed.

(** X2: after any series of key events, started from the initial state or
    any other, each flag holds what the last event about one of its keys
    said (down: true, up: false), and its old value when no event was about
    its keys. *)
Theorem last_event_wins
        (a : Action) (events : list Keyboard.KeyboardEvent)
        (keys : MovementKeys) :
  flag a (Keyboard.handleKeys events keys)
  = match find (concerns a) (rev events) with
    | Some e => eventPressed e
    | None => flag a keys
    end.
Proof.
  induction events as [ | e events IH ] using rev_ind; [ reflexivity | ].
  rewrite handleKeys_snoc, handleKey_flag, rev_app_distr. cbn [rev app find].
  destruct (concerns a e); [ reflexivity | exact IH ].
Qed.

(** X3: two keys bound to one action share its flag: with both held,
    releasing either one clears the flag although the other is still
    down. *)
Theorem alias_release_clears_flag
        (a : Action) (k1 k2 : String.string) (keys : MovementKeys) :
  keyAction k1 = Some a -> keyAction k2 = Some a ->
  flag a (Keyboard.handleKeys
            [Keyboard.keydown k1; Keyboard.keydown k2; Keyboard.keyup k1] keys)
  = false.
Proof.
  intros H1 H2. unfold Keyboard.handleKeys; cbn [fold_left].
  rewrite handleKey_flag. unfold concerns; cbn [eventKey eventPressed].
  rewrite H1. destruct a; reflexivity.
Qed.

Lemma alias_release_clears_flag_witness :
  forward (Keyboard.handleKeys
             [Keyboard.keydown key_W; Keyboard.keydown key_ArrowUp;
              Keyboard.keyup key_W]
             INITIAL_KEYS)
  = false.
Proof.
  apply (alias_release_clears_flag Forward key_W key_ArrowUp INITIAL_KEYS);
    reflexivity.
Defined.

(** X4: events about keys that are bound to no action never change the
    state, however many there are. *)
Theorem unbound_keys_are_ignored
        (events : list Keyboard.KeyboardEvent) (keys : MovementKeys) :
  Forall (fun e => keyAction (eventKey e) = None) events ->
  Keyboard.handleKeys events keys = keys.
Proof.
  intros H. induction events as [ | e events IH ] using rev_ind;
    [ reflexivity | ].
  apply Forall_app in H. destruct H as [Hs He].
  inversion He as [ | ? ? U _ ]; subst.
  rewrite handleKeys_snoc, (IH Hs).
  apply keys_ext. intros a. rewrite handleKey_flag.
  unfold concerns. rewrite U. reflexivity.
Qed.

Lemma unbound_keys_are_ignored_witness :
  Keyboard.handleKeys
    [Keyboard.keydown key_q; Keyboard.keyup key_Escape;
     Keyboard.keydown String.EmptyString]
    (mkKeys true false true false false true)
  = mkKeys true false true false false true.
Proof.
  apply (unbound_keys_are_ignored
           [Keyboard.keydown key_q; Keyboard.keyup key_Escape;
            Keyboard.keydown String.EmptyString]).
  repeat constructor.
Defined.

(** X5: key auto-repeat is harmless: handling an event a second time right
    after the first changes nothing. *)
Theorem repeated_event_is_idempotent
        (keys : MovementKeys) (e : Keyboard.KeyboardEvent) :
  Keyboard.handleKey (Keyboard.handleKey keys e) e = Keyboard.handleKey keys e.
Proof.
  apply keys_ext. intros a. rewrite !handleKey_flag.
  destruct (concerns a e); reflexivity.
Qed.

(** ** Boxes *)

(** X6: a box whose size is zero or negative along some axis contains no
    point: it is never detected and the loop passes it by. *)
Theorem flat_box_never_collides
        (c : Collider) (target vel : Vector3) :
  x (Collider.size c) <= 0 \/ y (Collider.size c) <= 0 \/ z (Collider.size c) <= 0 ->
  intersectsBox target c = false /\
  resolveCollider (target, vel) c = (target, vel).
Proof.
  intros H.
  assert (N : ~ insideBox target c).
  { unfold insideBox, box_min, box_max, clone.
    cbn [x y z add sub multiplyScalar]. lra. }
  split.
  - destruct (intersectsBox target c) eqn:E; [ | reflexivity ].
    apply intersectsBox_true_iff in E. contradiction.
  - apply (not_inside_untouched c (target, vel)). exact N.
Qed.

Lemma flat_box_never_collides_witness :
  let c := createCollider (0, 15 / 10, -10) (8, 3, 0) in
  resolveCollider (mkVector3 0 (15 / 10) (-10), mkVector3 1 2 3) c
  = (mkVector3 0 (15 / 10) (-10), mkVector3 1 2 3).
Proof.
  intros c.
  refine (proj2 (flat_box_never_collides c _ _ _)).
  right; right. cbn. lra.
Defined.

(** Where the loop body leaves a detected point. *)
Lemma push_outcome (c : Collider) (target vel : Vector3) :
  insideBox target c ->
  let target' := fst (resolveCollider (target, vel) c) in
  nearXZ target' c /\ ~ insideXZ target' c /\ y target' = y target.
Proof.
  intros I target'. subst target'.
  assert (H : intersectsBox target c = true)
    by (apply intersectsBox_true_iff; exact I).
  pose proof (inner_gate _ _ H) as G.
  unfold resolveCollider. rewrite H, G. unfold insideBox in I.
  unfold nearXZ, insideXZ.
  destruct (Num.ltb (depthX target c) (depthZ target c)) eqn:D;
    [ apply ltb_true_iff in D | apply ltb_false_iff in D ].
  - destruct (Num.gtb (x target) (x (Collider.position c))) eqn:S;
      [ apply gtb_true_iff in S | apply gtb_false_iff in S ];
      box_arith; repeat split; box_arith.
  - destruct (Num.gtb (z target) (z (Collider.position c))) eqn:S;
      [ apply gtb_true_iff in S | apply gtb_false_iff in S ];
      box_arith; repeat split; box_arith.
Qed.

Lemma insideBox_insideXZ (point : Vector3) (c : Collider) :
  insideBox point c -> insideXZ point c.
Proof. unfold insideBox, insideXZ. tauto. Qed.

(** X7: resolving the same box a second time changes nothing, and the
    resolved point is not inside that box. *)
Theorem resolveCollider_idempotent
        (c : Collider) (tv : Vector3 * Vector3) :
  ~ insideBox (fst (resolveCollider tv c)) c /\
  resolveCollider (resolveCollider tv c) c = resolveCollider tv c.
Proof.
  assert (N : ~ insideBox (fst (resolveCollider tv c)) c).
  { destruct tv as [target vel].
    destruct (intersectsBox target c) eqn:E.
    - apply intersectsBox_true_iff in E.
      destruct (push_outcome c target vel E) as (_ & O & _).
      intros I. apply O, insideBox_insideXZ, I.
    - unfold resolveCollider. rewrite E. cbn [fst]. intros I.
      apply intersectsBox_true_iff in I. congruence. }
  split; [ exact N | ]. apply not_inside_untouched. exact N.
Qed.

(** What the whole loop does on a well spaced list: either nothing, the
    point being inside no box, or it leaves the point beside a box. *)
Lemma resolveBoxes_outcome (cs : list Collider) (target vel : Vector3) :
  wellSpaced cs ->
  let target' := fst (resolveBoxes cs target vel) in
  (target' = target /\ forall c, In c cs -> ~ insideBox target c) \/
  (exists c, In c cs /\ nearXZ target' c /\ ~ insideXZ target' c).
Proof.
  revert target vel. induction cs as [ | c cs IH ]; intros target vel W target'.
  - left. split; [ reflexivity | intros c [] ].
  - assert (W' : wellSpaced cs).
    { intros a b Ha Hb. apply W; right; assumption. }
    subst target'. unfold resolveBoxes; cbn [fold_left].
    destruct (intersectsBox target c) eqn:E.
    + apply intersectsBox_true_iff in E.
      destruct (push_outcome c target vel E) as (N & O & _).
      destruct (resolveCollider (target, vel) c) as [t1 v1]; cbn [fst] in N, O.
      assert (R : resolveBoxes cs t1 v1 = (t1, v1)).
      { apply resolveBoxes_not_inside. intros c' Hc' I.
        apply insideBox_insideXZ in I.
        destruct (W c c' (or_introl eq_refl) (or_intror Hc')) as [<- | A];
          [ exact (O I) | exact (A t1 N I) ]. }
      unfold resolveBoxes in R. rewrite R. cbn [fst].
      right. exists c. split; [ left; reflexivity | split; assumption ].
    + assert (U : resolveCollider (target, vel) c = (target, vel)).
      { unfold resolveCollider. rewrite E. reflexivity. }
      rewrite U. fold (resolveBoxes cs target vel).
      destruct (IH target vel W') as [[T I] | (cj & Hj & N & O)].
      * left. split; [ exact T | ]. intros c' [<- | Hc']; [ | apply I; exact Hc' ].
        intros J. apply intersectsBox_true_iff in J. congruence.
      * right. exists cj. split; [ right; exact Hj | split; assumption ].
Qed.

Lemma resolveCollisions_outside (cs : list Collider) (target vel : Vector3) :
  wellSpaced cs ->
  (forall c, In c cs -> standing c) ->
  0 < y target ->
  forall c, In c cs ->
    ~ insideBox (fst (fst (resolveCollisions cs target vel))) c.
Proof.
  intros W S Y c Hc.
  pose proof (resolveBoxes_outcome cs target vel W) as O.
  destruct (resolveBoxes_y cs target vel) as [Ht _].
  unfold resolveCollisions.
  destruct (resolveBoxes cs target vel) as [t1 v1]; cbn [fst] in O, Ht.
  assert (X : (floorHeight <= y t1 /\ ~ insideBox t1 c) \/ ~ insideXZ t1 c).
  { destruct O as [[-> I] | (cj & Hj & N & O)].
    - destruct (Rle_lt_dec floorHeight (y target)) as [F | F].
      + left. split; [ exact F | apply I; exact Hc ].
      + right. intros [JX JZ]. apply (I c Hc).
        destruct (S c Hc) as [S0 S1]. unfold insideBox. repeat split; try tauto; lra.
    - right. destruct (W cj c Hj Hc) as [<- | A]; [ exact O | exact (A t1 N) ]. }
  unfold clampFloor. destruct (Num.ltb (y t1) floorHeight) eqn:E; cbn [fst].
  - apply ltb_true_iff in E. destruct X as [[F _] | X]; [ lra | ].
    intros I. apply X. unfold insideBox, insideXZ, setY in *. cbn [x z] in I. tauto.
  - destruct X as [[_ X] | X]; [ exact X | ].
    intros I. apply X, insideBox_insideXZ, I.
Qed.

(** X8: when the boxes are well spaced (no widened footprint meets another
    footprint) and stand on the ground, an engaged frame whose candidate is
    above the ground plane y = 0 commits a position that is strictly inside
    none of the boxes. *)
Theorem committed_position_outside_boxes
        (cs : list Collider) (controls : option Controls)
        (keys : MovementKeys) (delta : R) (p : Player) :
  wellSpaced cs ->
  (forall c, In c cs -> standing c) ->
  gateEngaged controls = true ->
  0 < y (candidate keys delta p) ->
  forall c, In c cs ->
    ~ insideBox (position (useFrame cs controls keys delta p)) c.
Proof.
  intros W S G Y c Hc. rewrite (useFrame_engaged _ _ _ _ _ G).
  pose proof (resolveCollisions_outside cs (candidate keys delta p)
                (fst (integrateVelocity keys delta p)) W S Y c Hc) as O.
  destruct (resolveCollisions _ _ _) as [[t' v'] g]. exact O.
Qed.

(** The six boxes of the scene are well spaced and stand on the ground. *)
Lemma scene_wellSpaced : wellSpaced colliders.
Proof.
  intros c c' Hc Hc'. unfold colliders in Hc, Hc'. cbn [In] in Hc, Hc'.
  repeat (destruct Hc as [Hc | Hc]; [ subst c | ]); try contradiction;
    repeat (destruct Hc' as [Hc' | Hc']; [ subst c' | ]); try contradiction;
    try (left; reflexivity);
    right; intros point;
    unfold nearXZ, insideXZ, box_min, box_max, createCollider, clone,
      capsuleRadius;
    cbn [x y z add sub multiplyScalar Collider.position Collider.size]; lra.
Qed.

Lemma scene_standing (c : Collider) : In c colliders -> standing c.
Proof.
  intros Hc. unfold colliders in Hc. cbn [In] in Hc.
  repeat (destruct Hc as [Hc | Hc]; [ subst c | ]); try contradiction;
    unfold standing, box_min, box_max, createCollider, clone, floorHeight;
    cbn [x y z add sub multiplyScalar Collider.position Collider.size]; lra.
Qed.

Lemma committed_position_outside_boxes_witness :
  ~ insideBox
      (position (useFrame colliders (Some (mkControls true)) sprintForward
                          (1 / 60) initialPlayer))
      (createCollider (9, 15 / 10, 4) (12, 3, 2)).
Proof.
  apply (committed_position_outside_boxes colliders (Some (mkControls true))
           sprintForward (1 / 60) initialPlayer scene_wellSpaced scene_standing
           eq_refl).
  - unfold candidate, addScaledVector, clone; cbn [y].
    rewrite integrateVelocity_y by reflexivity.
    unfold gravity; cbn [initialPlayer position velocity spawn zero y]. lra.
  - unfold colliders. cbn [In]. tauto.
Defined.

(** ** Keys and the integrator *)

Lemma moveX_balanced (keys : MovementKeys) :
  left keys = right keys -> moveX keys = 0.
Proof. intros H. unfold moveX. rewrite H. ring. Qed.

Lemma moveZ_balanced (keys : MovementKeys) :
  forward keys = backward keys -> moveZ keys = 0.
Proof. intros H. unfold moveZ. rewrite H. ring. Qed.

(** X9: opposite keys cancel: with forward and backward in the same state
    and left and right in the same state, the frame is the one with no
    directional key at all (no acceleration, no speed clamp). *)
Theorem opposing_keys_cancel
        (cs : list Collider) (controls : option Controls)
        (keys : MovementKeys) (delta : R) (p : Player) :
  forward keys = backward keys ->
  left keys = right keys ->
  useFrame cs controls keys delta p
  = useFrame cs controls
             (mkKeys false false false false (jump keys) (sprint keys)) delta p.
Proof.
  intros HZ HX.
  assert (E : integrateVelocity keys delta p
              = integrateVelocity
                  (mkKeys false false false false (jump keys) (sprint keys))
                  delta p).
  { unfold integrateVelocity.
    rewrite (steer_idle _ keys _ _ (moveX_balanced _ HX) (moveZ_balanced _ HZ)).
    rewrite (steer_idle _ (mkKeys false false false false (jump keys) (sprint keys)))
      by (apply moveX_balanced || apply moveZ_balanced; reflexivity).
    reflexivity. }
  unfold useFrame, candidate. rewrite E. reflexivity.
Qed.

Lemma opposing_keys_cancel_witness :
  useFrame colliders (Some (mkControls true))
           (mkKeys true true false false false true) (1 / 60) initialPlayer
  = useFrame colliders (Some (mkControls true))
             (mkKeys false false false false false true) (1 / 60) initialPlayer.
Proof.
  apply (opposing_keys_cancel colliders (Some (mkControls true))
           (mkKeys true true false false false true) (1 / 60) initialPlayer);
    reflexivity.
Defined.

(** X10: no double jump: while the player is not grounded the jump flag
    has no effect on the frame. *)
Theorem airborne_jump_is_ignored
        (cs : list Collider) (controls : option Controls)
        (keys : MovementKeys) (delta : R) (p : Player) :
  onGround p = false ->
  useFrame cs controls keys delta p
  = useFrame cs controls
             (mkKeys (forward keys) (backward keys) (left keys) (right keys)
                     false (sprint keys))
             delta p.
Proof.
  intros H.
  assert (E : integrateVelocity keys delta p
              = integrateVelocity
                  (mkKeys (forward keys) (backward keys) (left keys)
                          (right keys) false (sprint keys))
                  delta p).
  { unfold integrateVelocity. rewrite H, andb_false_r. reflexivity. }
  unfold useFrame, candidate. rewrite E. reflexivity.
Qed.

Lemma airborne_jump_is_ignored_witness :
  useFrame colliders (Some (mkControls true))
           (mkKeys false false false true true false) (1 / 60) initialPlayer
  = useFrame colliders (Some (mkControls true))
             (mkKeys false false false true false false) (1 / 60) initialPlayer.
Proof.
  apply (airborne_jump_is_ignored colliders (Some (mkControls true))
           (mkKeys false false false true true false) (1 / 60) initialPlayer).
  reflexivity.
Defined.

(** X11: a jump from the ground: with jump held and the player grounded at
    or above the floor height, an engaged frame of delta >= 0 commits the
    vertical velocity 10 (that frame's gravity is overwritten), the height
    y + 10 * delta, and grounded false. *)
Theorem grounded_jump_takes_off
        (cs : list Collider) (controls : option Controls)
        (keys : MovementKeys) (delta : R) (p : Player) :
  gateEngaged controls = true ->
  jump keys = true -> onGround p = true ->
  floorHeight <= y (position p) ->
  0 <= delta ->
  let p' := useFrame cs controls keys delta p in
  y (velocity p') = 10 /\
  y (position p') = y (position p) + 10 * delta /\
  onGround p' = false.
Proof.
  intros G J O F D p'. subst p'.
  assert (V : y (fst (integrateVelocity keys delta p)) = 10).
  { unfold integrateVelocity. rewrite J, O. reflexivity. }
  assert (C : y (candidate keys delta p) = y (position p) + 10 * delta).
  { unfold candidate, addScaledVector, clone; cbn [y]. rewrite V. reflexivity. }
  destruct (floor_frame_cases cs controls keys delta p G)
    as [(Hlt & _) | (_ & Hp & Hv & Hg)].
  - rewrite C in Hlt. nra.
  - rewrite Hp, Hv, C, V. auto.
Qed.

Lemma grounded_jump_takes_off_witness :
  let p' := useFrame colliders (Some (mkControls true))
                     (mkKeys false false false false true false) (1 / 60)
                     groundedSpawn in
  y (velocity p') = 10 /\
  y (position p') = y (position groundedSpawn) + 10 * (1 / 60) /\
  onGround p' = false.
Proof.
  apply (grounded_jump_takes_off colliders (Some (mkControls true))
           (mkKeys false false false false true false) (1 / 60) groundedSpawn);
    try reflexivity; lra.
Defined.

Lemma resting_frame (cs : list Collider) (controls : option Controls)
      (keys : MovementKeys) (delta : R) (p : Player) :
  gateEngaged controls = true -> jump keys = false -> 0 < delta ->
  rests p ->
  rests (useFrame cs controls keys delta p) /\
  onGround (useFrame cs controls keys delta p) = true.
Proof.
  intros G J D [Hy Hv].
  assert (C : y (candidate keys delta p) < floorHeight).
  { unfold candidate, addScaledVector, clone; cbn [y].
    rewrite integrateVelocity_y by (rewrite J; reflexivity).
    rewrite Hy, Hv. unfold gravity. nra. }
  destruct (floor_frame_cases cs controls keys delta p G)
    as [(_ & Hp & Hv' & Hg) | (Hge & _)]; [ | lra ].
  unfold rests. auto.
Qed.

(** X12: standing still: from a state at the floor height with zero
    vertical velocity, any non-empty run of engaged frames with delta > 0
    and jump not held ends at the floor height, with zero vertical velocity
    and grounded true, whatever the other keys and the boxes. *)
Theorem standing_player_stays_grounded
        (cs : list Collider) (frames : list Frame) (p : Player) :
  Forall (fun f => gateEngaged (f_controls f) = true /\
                   jump (f_keys f) = false /\ 0 < f_delta f) frames ->
  frames <> [] ->
  rests p ->
  rests (runFrames cs frames p) /\ onGround (runFrames cs frames p) = true.
Proof.
  intros H N R.
  induction frames as [ | f fs IH ] using rev_ind; [ contradiction | ].
  apply Forall_app in H. destruct H as [Hfs Hf].
  inversion Hf as [ | ? ? (G & J & D) _ ]; subst.
  rewrite runFrames_snoc. unfold frameStep.
  apply resting_frame; auto.
  destruct fs as [ | f0 fs0 ]; [ exact R | ].
  apply IH; [ exact Hfs | discriminate ].
Qed.

Lemma standing_player_stays_grounded_witness :
  rests (runFrames colliders
           [steadyFrame identityQ sprintForward (1 / 60);
            steadyFrame identityQ INITIAL_KEYS (1 / 30)]
           initialPlayer).
Proof.
  refine (proj1 (standing_player_stays_grounded colliders
                   [steadyFrame identityQ sprintForward (1 / 60);
                    steadyFrame identityQ INITIAL_KEYS (1 / 30)]
                   initialPlayer _ _ _)).
  - repeat constructor; cbn; lra.
  - discriminate.
  - split; reflexivity.
Defined.

(** ** Damping and acceleration *)

(** Horizontal velocity after an engaged frame without net directional
    input that hits no box. *)
Lemma idle_frame_velocity (cs : list Collider) (controls : option Controls)
      (keys : MovementKeys) (delta : R) (p : Player) :
  gateEngaged controls = true ->
  steering keys = false ->
  (forall c, In c cs -> ~ insideBox (candidate keys delta p) c) ->
  x (velocity (useFrame cs controls keys delta p))
  = x (velocity p) * exp (-4 * delta) /\
  z (velocity (useFrame cs controls keys delta p))
  = z (velocity p) * exp (-4 * delta).
Proof.
  intros G S Hclear. rewrite (useFrame_clear _ _ _ _ _ G Hclear).
  destruct (integrateVelocity_xz keys delta p) as [VX VZ].
  rewrite (steer_not_steering _ _ _ _ S) in VX, VZ.
  unfold dampHorizontal, damping in VX, VZ. cbn [x z] in VX, VZ.
  unfold clampFloor. destruct (Num.ltb _ _); cbn [velocity setY x z];
    split; assumption.
Qed.

(** X13: coasting is frame-rate independent: over a run of engaged frames
    without net directional input that hit no box, the horizontal velocity
    is the initial one times exp(-4 * T), T the total time of the run,
    however that time is cut into frames. *)
Theorem coasting_depends_on_elapsed_time_only
        (cs : list Collider) (frames : list Frame) (p : Player) :
  Forall (fun f => gateEngaged (f_controls f) = true /\
                   steering (f_keys f) = false) frames ->
  clearRun cs frames p ->
  x (velocity (runFrames cs frames p))
  = x (velocity p) * exp (-4 * elapsed frames) /\
  z (velocity (runFrames cs frames p))
  = z (velocity p) * exp (-4 * elapsed frames).
Proof.
  revert p. induction frames as [ | f fs IH ]; intros p H C.
  - cbn [runFrames fold_left elapsed fold_right].
    replace (-4 * 0) with 0 by ring. rewrite exp_0. split; ring.
  - inversion H as [ | ? ? (G & S) Hfs ]; subst. destruct C as [C0 C].
    change (runFrames cs (f :: fs) p) with (runFrames cs fs (frameStep cs f p)).
    destruct (IH _ Hfs C) as [IX IZ]. rewrite IX, IZ.
    unfold frameStep.
    destruct (idle_frame_velocity cs (f_controls f) (f_keys f) (f_delta f)
                (lookAround (f_look f) p) G S C0) as [FX FZ].
    rewrite FX, FZ. cbn [lookAround velocity].
    change (elapsed (f :: fs)) with (f_delta f + elapsed fs).
    replace (-4 * (f_delta f + elapsed fs))
      with (-4 * f_delta f + -4 * elapsed fs) by ring.
    rewrite exp_plus. split; ring.
Qed.

Lemma coasting_depends_on_elapsed_time_only_witness :
  let p := mkPlayer (mkVector3 3 0 4) (mkVector3 0 2 6) false
                    (mkCamera (mkVector3 0 2 6) identityQ) in
  x (velocity (runFrames []
                 [steadyFrame identityQ INITIAL_KEYS (1 / 60);
                  steadyFrame identityQ INITIAL_KEYS (1 / 30)] p))
  = 3 * exp (-4 * (1 / 60 + (1 / 30 + 0))).
Proof.
  intros p.
  refine (proj1 (coasting_depends_on_elapsed_time_only []
                   [steadyFrame identityQ INITIAL_KEYS (1 / 60);
                    steadyFrame identityQ INITIAL_KEYS (1 / 30)] p _ _)).
  - assert (S : steering INITIAL_KEYS = false).
    { unfold steering. rewrite moveX_INITIAL, moveZ_INITIAL.
      replace (Num.neqb 0 0) with false; [ reflexivity | ].
      symmetry; apply neqb_false_iff; reflexivity. }
    repeat constructor; exact S.
  - cbn [clearRun]. repeat split; intros c [].
Defined.

(** X14: the first frame from horizontal rest: whatever keys make up the
    move direction (one key or a diagonal), an engaged steering frame that
    hits no box commits the horizontal speed min(36 * delta, cap). *)
Theorem first_frame_speed
        (cs : list Collider) (q : Quaternion) (keys : MovementKeys)
        (delta : R) (p : Player) :
  steering keys = true ->
  0 < lengthSq (moveDirection q keys) ->
  0 <= delta ->
  quaternion (camera p) = q ->
  x (velocity p) = 0 -> z (velocity p) = 0 ->
  (forall c, In c cs -> ~ insideBox (candidate keys delta p) c) ->
  currentSpeed (velocity (useFrame cs (Some (mkControls true)) keys delta p))
  = Rmin (36 * delta) (targetSpeed keys).
Proof.
  intros Hsteer Hdir Hd Hq HX HZ Hclear.
  destruct (frame_straight cs q keys delta Hsteer Hdir Hd p 0 Hq (Rle_refl 0))
    as (_ & Ha & _).
  - unfold aligned. rewrite HX, HZ. split; ring.
  - exact Hclear.
  - rewrite (aligned_speed _ _ _ _ Hdir
               (speedStep_nonneg keys delta Hd 0 (Rle_refl 0)) Ha).
    unfold speedStep, acceleration. f_equal. ring.
Qed.

Lemma tempFront_identity : tempFront identityQ = mkVector3 0 0 (-1).
Proof.
  change (tempFront identityQ) with (normalize (frontProjection identityQ)).
  rewrite frontProjection_identity. apply normalize_unit.
  unfold lengthSq; cbn [x y z]. ring.
Qed.

Lemma tempSide_identity : tempSide identityQ = mkVector3 1 0 0.
Proof.
  unfold tempSide.
  assert (E : setY (applyQuaternion (set zero 1 0 0) identityQ) 0
              = mkVector3 1 0 0).
  { unfold applyQuaternion, setY, set, identityQ.
    apply vec_eq; cbn [x y z qx qy qz qw]; ring. }
  rewrite E. apply normalize_unit. unfold lengthSq; cbn [x y z]. ring.
Qed.

Lemma first_frame_speed_witness :
  currentSpeed
    (velocity (useFrame [] (Some (mkControls true))
                        (mkKeys true false false true false false) (1 / 60)
                        initialPlayer))
  = Rmin (36 * (1 / 60)) 6.
Proof.
  assert (MX : moveX (mkKeys true false false true false false) = 1)
    by (unfold moveX; cbn; ring).
  assert (MZ : moveZ (mkKeys true false false true false false) = -1)
    by (unfold moveZ; cbn; ring).
  apply (first_frame_speed [] identityQ
           (mkKeys true false false true false false) (1 / 60) initialPlayer);
    try reflexivity.
  - apply steering_forward. exact MZ.
  - unfold moveDirection. rewrite MX, MZ, tempFront_identity, tempSide_identity.
    unfold lengthSq, addScaledVector, multiplyScalar, copy; cbn [x y z]. lra.
  - lra.
  - intros c [].
Defined.

Lemma heading_forward (q : Quaternion) (keys : MovementKeys) :
  moveX keys = 0 -> moveZ keys = -1 ->
  0 < lengthSq (frontProjection q) ->
  heading q keys = multiplyScalar (tempFront q) (-1).
Proof.
  intros HX HZ H. unfold heading. rewrite (moveDirection_forward _ _ HX HZ).
  apply normalize_unit.
  pose proof (normalize_lengthSq _ H) as U.
  change (normalize (frontProjection q)) with (tempFront q) in U.
  unfold multiplyScalar, lengthSq in *; cbn [x y z]. nra.
Qed.

(** X15: the forward key accelerates against the camera's forward axis:
    from horizontal rest, with forward held and backward, left and right
    not adding to it, an engaged frame that hits no box commits the
    horizontal velocity -s * tempFront with s = min(36 * delta, cap), where
    tempFront is the horizontal unit vector of the camera's viewing
    direction. *)
Theorem forward_key_accelerates_against_front
        (cs : list Collider) (q : Quaternion) (keys : MovementKeys)
        (delta : R) (p : Player) :
  moveX keys = 0 -> moveZ keys = -1 ->
  0 < lengthSq (frontProjection q) ->
  0 <= delta ->
  quaternion (camera p) = q ->
  x (velocity p) = 0 -> z (velocity p) = 0 ->
  (forall c, In c cs -> ~ insideBox (candidate keys delta p) c) ->
  let p' := useFrame cs (Some (mkControls true)) keys delta p in
  let s := Rmin (36 * delta) (targetSpeed keys) in
  x (velocity p') = - s * x (tempFront q) /\
  z (velocity p') = - s * z (tempFront q).
Proof.
  intros MX MZ Hcam Hd Hq HX HZ Hclear p' s. subst p' s.
  pose proof (steering_forward _ MZ) as Hsteer.
  pose proof (forward_has_direction _ _ MX MZ Hcam) as Hdir.
  destruct (frame_straight cs q keys delta Hsteer Hdir Hd p 0 Hq (Rle_refl 0))
    as (_ & [AX AZ] & _).
  - unfold aligned. rewrite HX, HZ. split; ring.
  - exact Hclear.
  - rewrite AX, AZ, (heading_forward _ _ MX MZ Hcam).
    unfold speedStep, acceleration, multiplyScalar; cbn [x z].
    replace (0 * damping delta + 36 * delta) with (36 * delta) by ring.
    split; ring.
Qed.

Lemma forward_key_accelerates_against_front_witness :
  let p' := useFrame [] (Some (mkControls true)) forwardOnly (1 / 60)
                     initialPlayer in
  z (tempFront identityQ) = -1 /\
  z (velocity p') = - Rmin (36 * (1 / 60)) 6 * -1.
Proof.
  intros p'. split; [ rewrite tempFront_identity; reflexivity | ].
  destruct forwardOnly_moves as [MX MZ].
  destruct (forward_key_accelerates_against_front [] identityQ forwardOnly
              (1 / 60) initialPlayer MX MZ) as [_ VZ]; try reflexivity.
  - rewrite frontProjection_identity. unfold lengthSq; cbn [x y z]. lra.
  - lra.
  - intros c [].
  - fold p' in VZ. rewrite VZ, tempFront_identity. reflexivity.
Defined.

(** X16: the camera follows the player: in every state reached from the
    spawn state, whatever the frames, the camera position is the player
    position. *)
Theorem camera_follows_player (cs : list Collider) (frames : list Frame) :
  cam_position (camera (runFrames cs frames initialPlayer))
  = position (runFrames cs frames initialPlayer).
Proof.
  induction frames as [ | f fs IH ] using rev_ind; [ reflexivity | ].
  rewrite runFrames_snoc. unfold frameStep.
  destruct (gateEngaged (f_controls f)) eqn:G.
  - rewrite (useFrame_engaged _ _ _ _ _ G).
    destruct (resolveCollisions _ _ _) as [[t' v'] g]. reflexivity.
  - unfold useFrame. rewrite G. cbn [negb lookAround camera cam_position position].
    exact IH.
Qed.

(** *** Top speed at sixty frames per second *)

Lemma damping_60_upper : damping (1 / 60) <= 15 / 16.
Proof.
  unfold damping. replace (-4 * (1 / 60)) with (- (1 / 15)) by field.
  rewrite exp_Ropp.
  pose proof (exp_ineq1_le (1 / 15)) as H.
  replace (15 / 16) with (/ (16 / 15)) by field.
  apply Rinv_le_contravar; lra.
Qed.

Lemma speedAfter_60_upper (T : R) (n : nat) :
  0 <= T -> speedAfter T (1 / 60) n <= 96 / 10.
Proof.
  intros HT. induction n as [ | n IH ]; cbn [speedAfter]; [ lra | ].
  unfold speedStep, acceleration.
  eapply Rle_trans; [ apply Rmin_l | ].
  pose proof damping_60_upper as D. pose proof (damping_pos (1 / 60)) as P.
  assert (N : 0 <= speedAfter T (1 / 60) n).
  { clear IH. induction n as [ | n IH ]; cbn [speedAfter]; [ lra | ].
    unfold speedStep, acceleration. apply Rmin_glb; [ nra | exact HT ]. }
  nra.
Qed.

(** X17: at 1/60 s per frame the sprint cap never binds: whatever the keys
    held, a steady run from horizontal rest that hits no box never commits
    a horizontal speed above 9.6, below the sprint cap 12. *)
Theorem steady_run_speed_at_60_fps
        (cs : list Collider) (q : Quaternion) (keys : MovementKeys)
        (p0 : Player) (n : nat) :
  steering keys = true ->
  0 < lengthSq (moveDirection q keys) ->
  x (velocity p0) = 0 -> z (velocity p0) = 0 ->
  clearPath cs q keys (1 / 60) p0 n ->
  currentSpeed
    (velocity (runFrames cs (repeat (steadyFrame q keys (1 / 60)) n) p0))
  <= 96 / 10.
Proof.
  intros Hsteer Hdir HX HZ Hclear.
  assert (Hd : 0 <= 1 / 60) by lra.
  destruct (run_straight cs q keys (1 / 60) p0 n Hsteer Hdir Hd HX HZ Hclear)
    as (Ha & _).
  rewrite (aligned_speed _ _ _ _ Hdir (speedAfter_nonneg _ _ Hd n) Ha).
  apply speedAfter_60_upper. left. apply targetSpeed_pos.
Qed.

Lemma steady_run_speed_at_60_fps_witness :
  currentSpeed
    (velocity (runFrames colliders
                 (repeat (steadyFrame identityQ sprintForward (1 / 60)) 600)
                 initialPlayer))
  <= 96 / 10.
Proof.
  destruct sprintForward_moves as [MX MZ].
  apply (steady_run_speed_at_60_fps colliders identityQ sprintForward
           initialPlayer 600).
  - apply steering_forward. exact MZ.
  - apply forward_has_direction; auto.
    rewrite frontProjection_identity. unfold lengthSq; cbn [x y z]. lra.
  - reflexivity.
  - reflexivity.
  - apply (spawn_clearPath sprintForward (1 / 60) 600 MX MZ). lra.
Defined.

(** ** The floating drones *)

(** X18: a drone whose group is mounted sits on the circle of the given
    radius around the vertical axis through its origin, never more than 1.2
    above or below the origin's height; while the ref is null the callback
    does nothing. *)
Theorem drone_stays_on_its_circle
        (origin : Vector3) (radius speed phase : R)
        (group : option Group) (elapsedTime : R) :
  match droneFrame origin radius speed phase group elapsedTime with
  | None => group = None
  | Some g' =>
      (x (g_position g') - x origin) ^ 2 + (z (g_position g') - z origin) ^ 2
      = radius ^ 2 /\
      Rabs (y (g_position g') - y origin) <= 12 / 10
  end.
Proof.
  destruct group as [ g | ]; cbn [droneFrame]; [ | reflexivity ].
  unfold set, clone; cbn [g_position x y z].
  set (t := elapsedTime * speed + phase). split.
  - pose proof (sin2_cos2 t) as H. unfold Rsqr in H.
    replace ((x origin + cos t * radius - x origin) ^ 2
             + (z origin + sin t * radius - z origin) ^ 2)
      with ((sin t * sin t + cos t * cos t) * radius ^ 2) by ring.
    rewrite H. ring.
  - replace (y origin + sin (t * (18 / 10)) * (12 / 10) - y origin)
      with (sin (t * (18 / 10)) * (12 / 10)) by ring.
    pose proof (SIN_bound (t * (18 / 10))) as [L U].
    apply Rabs_le. lra.
Qed.

(** X19: the drone's path closes: the position of a mounted drone at time
    T + 10 * PI / speed is its position at time T (speed not zero). *)
Theorem drone_path_is_periodic
        (origin : Vector3) (radius speed phase : R)
        (g : Group) (elapsedTime : R) :
  speed <> 0 ->
  option_map g_position
    (droneFrame origin radius speed phase (Some g)
                (elapsedTime + 10 * PI / speed))
  = option_map g_position
      (droneFrame origin radius speed phase (Some g) elapsedTime).
Proof.
  intros Hs. cbn [droneFrame option_map g_position]. unfold set.
  set (t := elapsedTime * speed + phase).
  assert (T : (elapsedTime + 10 * PI / speed) * speed + phase
              = t + 2 * INR 5 * PI).
  { unfold t. rewrite INR_IZR_INZ. cbn [Z.of_nat Pos.of_succ_nat Pos.succ].
    field. exact Hs. }
  rewrite T.
  assert (W : (t + 2 * INR 5 * PI) * (18 / 10)
              = t * (18 / 10) + 2 * INR 9 * PI).
  { rewrite !INR_IZR_INZ. cbn [Z.of_nat Pos.of_succ_nat Pos.succ]. field. }
  rewrite W, !cos_period, !sin_period. reflexivity.
Qed.

Lemma drone_path_is_periodic_witness :
  option_map g_position
    (droneFrame (mkVector3 (-6) 6 (-12)) 6 (6 / 10) 0
                (Some (mkGroup zero zero)) (0 + 10 * PI / (6 / 10)))
  = option_map g_position
      (droneFrame (mkVector3 (-6) 6 (-12)) 6 (6 / 10) 0
                  (Some (mkGroup zero zero)) 0).
Proof.
  apply (drone_path_is_periodic (mkVector3 (-6) 6 (-12)) 6 (6 / 10) 0
           (mkGroup zero zero) 0).
  lra.
Defined.
